(** * Faucet_Integrate.js: the client-side binding of the USDC faucet

    A shallow embedding of [src/contracts/Faucet_Integrate.js] and the
    properties of its operations.  The file has three layers:

    - [JS]: the fragment of the JavaScript language the binding relies on
      (primitive values, truthiness, binary64 numbers, [BigInt] and [Number]
      printing, [toLowerCase]);
    - [Ethers]: the two unit conversions of the ethers library the binding
      calls, [parseUnits] and [formatUnits];
    - the binding itself, as programs of a small monad that threads the
      console and provider trace and the thrown error. *)

From Stdlib Require Import ZArith List String Ascii Bool Lia QArith.
From Stdlib Require Import SpecFloat.
Import ListNotations.

Local Open Scope Z_scope.

(* ================================================================== *)
(** * The JavaScript fragment *)
(* ================================================================== *)

Module JS.

(** ** Decimal digits *)

Definition zero_char : ascii := "0"%char.
Definition dot_char : ascii := "."%char.
Definition minus_char : ascii := "-"%char.

(** The character of a digit value in [0..9]. *)
Definition digit_char (d : Z) : ascii := ascii_of_N (48 + Z.to_N d).

(** [/[0-9]/] *)
Definition is_digit (c : ascii) : bool :=
  let n := N_of_ascii c in (48 <=? n)%N && (n <=? 57)%N.

Definition digit_val (c : ascii) : Z := Z.of_N (N_of_ascii c) - 48.

(** The number a run of decimal digits denotes; the empty run denotes 0. *)
Definition digits_val (l : list ascii) : Z :=
  fold_left (fun acc c => 10 * acc + digit_val c) l 0.

(** The decimal digits of a non-negative integer, most significant first,
    pushed in front of [acc].  The fuel bounds the number of digits. *)
Fixpoint digits_fuel (fuel : nat) (n : Z) (acc : list ascii) : list ascii :=
  match fuel with
  | O => acc
  | S f =>
      let acc' := digit_char (n mod 10) :: acc in
      if n <? 10 then acc' else digits_fuel f (n / 10) acc'
  end.

(** A number of [b] bits has at most [b] decimal digits. *)
Definition nat_digits (n : Z) : list ascii :=
  match n with
  | Zpos p => digits_fuel (Pos.size_nat p) n []
  | _ => [zero_char]
  end.

(** [BigInt.prototype.toString()], radix 10. *)
Definition BigInt_toString (n : Z) : string :=
  string_of_list_ascii
    (if n <? 0 then minus_char :: nat_digits (- n) else nat_digits n).

(** ** Numbers: IEEE 754 binary64 *)

Definition Number : Type := spec_float.

Definition prec : Z := 53.
Definition emax : Z := 1024.

Definition NaN : Number := S754_nan.

(** [Number(n)] for a BigInt [n]: the nearest binary64, ties to even. *)
Definition Number_of_BigInt (n : Z) : Number :=
  binary_normalize prec emax n 0 false.

(** [x / y] *)
Definition Number_div (x y : Number) : Number := SFdiv prec emax x y.

(** [x % y]: the remainder of the truncating division, with the sign of the
    dividend; it is always representable, so no rounding takes place. *)
Definition Number_rem (x y : Number) : Number :=
  match x, y with
  | S754_nan, _ | _, S754_nan => NaN
  | S754_infinity _, _ => NaN
  | _, S754_zero _ => NaN
  | S754_zero _, _ => x
  | S754_finite _ _ _, S754_infinity _ => x
  | S754_finite sx mx ex, S754_finite _ my ey =>
      let e := Z.min ex ey in
      let a := Zpos mx * 2 ^ (ex - e) in
      let b := Zpos my * 2 ^ (ey - e) in
      binary_normalize prec emax (cond_Zopp sx (a mod b)) e sx
  end.

(** [Math.floor(x)] *)
Definition Math_floor (x : Number) : Number :=
  match x with
  | S754_finite s m e =>
      if 0 <=? e then x
      else binary_normalize prec emax (cond_Zopp s (Zpos m) / 2 ^ (- e)) 0 s
  | _ => x
  end.

(** *** Printing a number: [Number::toString(x)], radix 10 *)

(** The binary64 nearest to the positive rational [num / den]. *)
Definition round_ratio (num den : Z) : Number :=
  let t := Z.max 0 (64 + Z.log2 den - Z.log2 num) in
  let q := (num * 2 ^ t) / den in
  let l := if (num * 2 ^ t) mod den =? 0 then loc_Exact else loc_Inexact Lt in
  binary_round_aux prec emax false q (- t) l.

(** [s * 10^p] as a fraction. *)
Definition scale10 (s p : Z) : Z * Z :=
  if 0 <=? p then (s * 10 ^ p, 1) else (s, 10 ^ (- p)).

(** The least [j >= 0] with [num * 10^j >= den]. *)
Fixpoint leading_zeros (fuel : nat) (num den j : Z) : Z :=
  match fuel with
  | O => j
  | S f => if den <=? num * 10 ^ j then j else leading_zeros f num den (j + 1)
  end.

(** The [n] with [10^(n-1) <= num/den < 10^n]. *)
Definition decimal_exponent (num den : Z) : Z :=
  if den <=? num
  then Z.of_nat (List.length (nat_digits (num / den)))
  else 1 - leading_zeros 400 num den 0.

(** The integers [s] of exactly [k] digits with [s * 10^(n-k)] rounding to
    [x], among the two that enclose [x * 10^(k-n)]; the nearer one first. *)
Definition candidates (x : Number) (num den n k : Z) : list Z :=
  let '(a, b) := scale10 1 (k - n) in
  let lo := (num * a) / (den * b) in
  let lo_nearer := 2 * (num * a - lo * den * b) <=? den * b in
  let ok s :=
    (10 ^ (k - 1) <=? s) && (s <? 10 ^ k) &&
    let '(c, d) := scale10 s (n - k) in
    match SFcompare (round_ratio c d) x with Some Eq => true | _ => false end in
  filter ok (if lo_nearer then [lo; lo + 1] else [lo + 1; lo]).

(** The shortest digits: the least [k] for which some [s] exists, trying
    [k = 18 - fuel, ...]; the result is [(n, k, s)]. *)
Fixpoint shortest (fuel : nat) (x : Number) (num den n0 k : Z)
  : option (Z * Z * Z) :=
  match fuel with
  | O => None
  | S f =>
      match candidates x num den n0 k, candidates x num den (n0 + 1) k with
      | s :: _, _ => Some (n0, k, s)
      | [], s :: _ => Some (n0 + 1, k, s)
      | [], [] => shortest f x num den n0 (k + 1)
      end
  end.

Definition zeros (n : Z) : list ascii := repeat zero_char (Z.to_nat n).

(** Steps 6 to 10 of [Number::toString]: the layout of the digits. *)
Definition layout (n k s : Z) : list ascii :=
  let ds := nat_digits s in
  if (-5 <=? n) && (n <=? 21) then
    if k <=? n then ds ++ zeros (n - k)
    else if 0 <? n then
      firstn (Z.to_nat n) ds ++ dot_char :: skipn (Z.to_nat n) ds
    else zero_char :: dot_char :: zeros (- n) ++ ds
  else
    let e := n - 1 in
    let ex :=
      "e"%char :: (if e <? 0 then minus_char else "+"%char)
               :: nat_digits (Z.abs e) in
    if k =? 1 then ds ++ ex
    else firstn 1 ds ++ dot_char :: skipn 1 ds ++ ex.

Definition positive_toString (m : positive) (e : Z) : list ascii :=
  let '(num, den) :=
    if 0 <=? e then (Zpos m * 2 ^ e, 1) else (Zpos m, 2 ^ (- e)) in
  match shortest 17 (S754_finite false m e) num den
          (decimal_exponent num den) 1 with
  | Some (n, k, s) => layout n k s
  | None => []
  end.

Definition Number_toString (x : Number) : string :=
  match x with
  | S754_nan => "NaN"
  | S754_zero _ => "0"
  | S754_infinity s => if s then "-Infinity" else "Infinity"
  | S754_finite s m e =>
      string_of_list_ascii
        ((if s then [minus_char] else []) ++ positive_toString m e)
  end.

(** ** Primitive values *)

Local Open Scope string_scope.
Local Open Scope list_scope.
Local Open Scope Z_scope.

Inductive JsValue : Type :=
  | JsUndefined
  | JsNull
  | JsBoolean (b : bool)
  | JsNumber (x : Number)
  | JsString (s : string)
  | JsBigInt (n : Z).

(** [ToBoolean]: what [!v] and [if (v)] test. *)
Definition ToBoolean (v : JsValue) : bool :=
  match v with
  | JsUndefined | JsNull => false
  | JsBoolean b => b
  | JsNumber (S754_zero _) | JsNumber S754_nan => false
  | JsNumber _ => true
  | JsString s => negb (String.eqb s "")
  | JsBigInt n => negb (n =? 0)
  end.

(** [ToString], as a template literal applies it; on every value but
    [undefined] and [null] it is also what [v.toString()] returns. *)
Definition ToString (v : JsValue) : string :=
  match v with
  | JsUndefined => "undefined"
  | JsNull => "null"
  | JsBoolean b => if b then "true" else "false"
  | JsNumber x => Number_toString x
  | JsString s => s
  | JsBigInt n => BigInt_toString n
  end.

(** [String.prototype.toLowerCase] on ASCII text. *)
Definition lower_char (c : ascii) : ascii :=
  let n := N_of_ascii c in
  if (65 <=? n)%N && (n <=? 90)%N then ascii_of_N (n + 32) else c.

Fixpoint toLowerCase (s : string) : string :=
  match s with
  | EmptyString => EmptyString
  | String c r => String (lower_char c) (toLowerCase r)
  end.

(** ** Errors and completions *)

(** A thrown value.  What the module, ethers and an EIP-1193 provider throw
    or reject with is an [Error] object; it is known by the message it
    carries. *)
Record JsError : Type := mkError { message : string }.

(** How an evaluation completes: normally with a value, or by a throw. *)
Inductive Completion (A : Type) : Type :=
  | Normal (a : A)
  | Throw (e : JsError).

Arguments Normal {A} a.
Arguments Throw {A} e.

End JS.

Import JS.
Local Open Scope string_scope.
Local Open Scope list_scope.
Local Open Scope Z_scope.

(* ================================================================== *)
(** * The unit conversions of ethers *)
(* ================================================================== *)

(** The binding converts between display units and scaled integers with
    [ethers.parseUnits] and [ethers.formatUnits].  Both belong to the
    ethers library and go through its [FixedNumber] with the format
    [{ decimals, width: 512 }]; error messages are kept to their first
    words. *)

Module Ethers.

(** [Zeros] of [fixednumber.ts]: the stock of zeros padding draws from. *)
Definition Zeros : list ascii := repeat zero_char 128.

Definition is_zero_char (c : ascii) : bool := Ascii.eqb c zero_char.

Fixpoint takeWhile (f : ascii -> bool) (l : list ascii) : list ascii :=
  match l with
  | c :: r => if f c then c :: takeWhile f r else []
  | [] => []
  end.

Fixpoint dropWhile (f : ascii -> bool) (l : list ascii) : list ascii :=
  match l with
  | c :: r => if f c then dropWhile f r else l
  | [] => []
  end.

(** The match of the regular expression of [fromString]: an optional minus
    sign, a run of digits, an optional point, a run of digits, and nothing
    else.  The result is the sign and the two runs. *)
Definition match_decimal (l : list ascii)
  : option (bool * list ascii * list ascii) :=
  let '(neg, r) :=
    match l with
    | c :: r' => if Ascii.eqb c minus_char then (true, r') else (false, l)
    | [] => (false, l)
    end in
  let whole := takeWhile is_digit r in
  let r1 := dropWhile is_digit r in
  let frac :=
    match r1 with
    | c :: r2 => if Ascii.eqb c dot_char then r2 else r1
    | [] => r1
    end in
  if forallb is_digit frac then Some (neg, whole, frac) else None.

(** [getNumber(unit)]: a BigInt unit must be a safe integer. *)
Definition getNumber (unit : Z) : Completion Z :=
  if (- (2 ^ 53 - 1) <=? unit) && (unit <=? 2 ^ 53 - 1)
  then Normal unit else Throw (mkError "overflow").

(** [getFormat({ decimals, width: 512 })] accepts at most 80 decimals. *)
Definition getFormat (decimals : Z) : Completion Z :=
  if decimals <=? 80 then Normal decimals
  else Throw (mkError "invalid FixedNumber decimals (too large)").

(** [checkValue]: the value must fit the signed 512 bit format. *)
Definition checkValue (val : Z) : Completion Z :=
  if (- 2 ^ 511 <=? val) && (val <? 2 ^ 511)
  then Normal val else Throw (mkError "overflow").

(** [BigInt(sign + digits)] for a run of decimal digits. *)
Definition BigInt_of_digits (neg : bool) (ds : list ascii) : Z :=
  if neg then - digits_val ds else digits_val ds.

(** [FixedNumber.fromString(value, { decimals, width: 512 }).value]: the
    digits after the point are padded with zeros up to [decimals] places,
    digits beyond them must all be zero, and the digits before and after
    the point are read as one integer. *)
Definition fromString (value : string) (decimals : Z) : Completion Z :=
  match match_decimal (list_ascii_of_string value) with
  | None => Throw (mkError "invalid FixedNumber string value")
  | Some (neg, whole, frac) =>
      if (List.length whole + List.length frac =? 0)%nat
      then Throw (mkError "invalid FixedNumber string value")
      else
        match getFormat decimals with
        | Throw e => Throw e
        | Normal decimals =>
            let whole := match whole with [] => [zero_char] | _ => whole end in
            (* one round of padding is enough: 80 < 128 *)
            let decimal :=
              if Z.of_nat (List.length frac) <? decimals
              then frac ++ Zeros else frac in
            if forallb is_zero_char (skipn (Z.to_nat decimals) decimal)
            then
              let decimal := firstn (Z.to_nat decimals) decimal in
              checkValue (BigInt_of_digits neg (whole ++ decimal))
            else Throw (mkError "too many decimals for format")
        end
  end.

(** Modelled from the spec: [ethers.parseUnits(value, unit)], for a number
    as [unit], is a function of the ethers library and not among the
    sources.  The spec has it convert a decimal amount to the integer
    scaled by [10^unit] by exact fixed-point scaling, with no floating-point
    rounding; the model is the text algorithm of [FixedNumber.fromString]
    above. *)
Definition parseUnits (value : string) (unit : Z) : Completion Z :=
  fromString value unit.

(** The two trimming loops of [toString]: drop a leading ["0"] as long as
    the character after it is not the point. *)
Fixpoint trim_zeros (l : list ascii) : list ascii :=
  match l with
  | c :: r =>
      if is_zero_char c
         && negb match r with c' :: _ => Ascii.eqb c' dot_char | [] => false end
      then trim_zeros r else l
  | [] => []
  end.

(** [toString(val, decimals)] of [fixednumber.ts]: the digits of [val],
    padded to more than [decimals] places, a point before the last
    [decimals] of them, and no zeros in front or behind but one next to
    the point. *)
Definition toString (val decimals : Z) : list ascii :=
  let negative := if val <? 0 then [minus_char] else [] in
  let str := nat_digits (Z.abs val) in
  if decimals =? 0 then negative ++ str
  else
    (* one round of padding is enough: 80 < 128 *)
    let str :=
      if Z.of_nat (List.length str) <=? decimals then Zeros ++ str else str in
    let index := Z.to_nat (Z.of_nat (List.length str) - decimals) in
    let str := firstn index str ++ dot_char :: skipn index str in
    let str := trim_zeros str in
    let str := rev (trim_zeros (rev str)) in
    negative ++ str.

(** [FixedNumber.fromValue(value, decimals, { decimals, width: 512 })
    .toString()] *)
Definition fromValue (value decimals : Z) : Completion string :=
  match getFormat decimals with
  | Throw e => Throw e
  | Normal decimals =>
      match checkValue value with
      | Throw e => Throw e
      | Normal value => Normal (string_of_list_ascii (toString value decimals))
      end
  end.

(** Modelled from the spec: [ethers.formatUnits(value, unit)], for a number
    as [unit], is a function of the ethers library and not among the
    sources.  The spec has it decode a scaled integer by dividing by
    [10^unit]; the model is the text algorithm of [FixedNumber.fromValue]
    and [toString] above. *)
Definition formatUnits (value unit : Z) : Completion string :=
  fromValue value unit.

(** Modelled from the spec: [ethers.formatUnits(value, unit)] for a BigInt
    as [unit], as the [uint8] that [decimals()] returns is one. *)
Definition formatUnits_big (value unit : Z) : Completion string :=
  match getNumber unit with
  | Throw e => Throw e
  | Normal decimals => fromValue value decimals
  end.

End Ethers.

(* ================================================================== *)
(** * The wallet, the provider and the remote contracts *)
(* ================================================================== *)

(** What [provider.getSigner()] resolves to: the signing capability of the
    wallet's active account. *)
Record Signer : Type := { signer_address : string }.

(** What a contract object sends its calls through. *)
Inductive Runner : Type :=
  | SignerRunner (s : Signer)
  | ProviderRunner.

(** [new ethers.Contract(target, abi, runner)] *)
Record Contract : Type :=
  { target : string; abi : list string; runner : Runner }.

(** The response to a submitted transaction. *)
Record TransactionResponse : Type := { hash : string }.

(** The interactions with the world outside the module: the wallet
    extension, the provider and, through it, the deployed contracts. *)
Inductive Call : Type :=
  | NewBrowserProvider                    (* new ethers.BrowserProvider(window.ethereum) *)
  | GetSigner                             (* provider.getSigner() *)
  | EthRequestAccounts                    (* window.ethereum.request({ method: 'eth_requestAccounts' }) *)
  | CallRequestTokens (c : Contract) (amount : Z)
  | CallGetRemainingAllowance (c : Contract) (user : JsValue)
  | CallGetFaucetBalance (c : Contract)
  | CallUsdcToken (c : Contract)
  | CallTryAutoMint (c : Contract)
  | CallForceAutoMint (c : Contract)
  | CallTimeUntilNextAutoMint (c : Contract)
  | CallDecimals (c : Contract)
  | CallBalanceOf (c : Contract) (holder : string)
  | Wait (tx : TransactionResponse).      (* tx.wait() *)

(** What each interaction resolves to; [uint256] and [uint8] results are
    BigInts. *)
Definition Resp (c : Call) : Type :=
  match c with
  | NewBrowserProvider => unit
  | GetSigner => Signer
  | EthRequestAccounts => list string
  | CallRequestTokens _ _ | CallTryAutoMint _ | CallForceAutoMint _ =>
      TransactionResponse
  | CallGetRemainingAllowance _ _ | CallGetFaucetBalance _
  | CallTimeUntilNextAutoMint _ | CallDecimals _ | CallBalanceOf _ _ => Z
  | CallUsdcToken _ => string
  | Wait _ => unit
  end.

(** [console.log] and [console.error] *)
Inductive Level : Type := Log | Error.

(** An argument of a console call. *)
Inductive Logged : Type :=
  | LogValue (v : JsValue)
  | LogError (e : JsError).

Definition text (s : string) : Logged := LogValue (JsString s).

(** What an operation does that can be observed from outside. *)
Inductive Event : Type :=
  | Called (c : Call)
  | Console (l : Level) (args : list Logged).

(** The world an operation runs in: whether [window.ethereum] is there, and
    how every interaction completes, which may depend on all that happened
    before. *)
Record World : Type :=
  { window_ethereum : bool;
    respond : list Event -> forall c : Call, Completion (Resp c) }.

(** ** The monad of the operations *)

(** An operation reads the world, extends the trace and completes. *)
Definition M (A : Type) : Type :=
  World -> list Event -> Completion A * list Event.

Definition ret {A} (a : A) : M A := fun _ t => (Normal a, t).

Definition throw {A} (e : JsError) : M A := fun _ t => (Throw e, t).

Definition bind {A B} (m : M A) (k : A -> M B) : M B :=
  fun w t =>
    match m w t with
    | (Normal a, t') => k a w t'
    | (Throw e, t') => (Throw e, t')
    end.

(** [try { m } catch (error) { h error }] *)
Definition try_catch {A} (m : M A) (h : JsError -> M A) : M A :=
  fun w t =>
    match m w t with
    | (Normal a, t') => (Normal a, t')
    | (Throw e, t') => h e w t'
    end.

(** [await] of an interaction. *)
Definition call (c : Call) : M (Resp c) :=
  fun w t => (respond w t c, t ++ [Called c]).

(** A computation of the libraries that may throw. *)
Definition lift {A} (r : Completion A) : M A := fun _ t => (r, t).

Definition console (l : Level) (args : list Logged) : M unit :=
  fun _ t => (Normal tt, t ++ [Console l args]).

Definition console_log : list Logged -> M unit := console Log.
Definition console_error : list Logged -> M unit := console Error.

Definition ethereum : M bool := fun w t => (Normal (window_ethereum w), t).

Notation "x <- m ;; k" := (bind m (fun x => k))
  (at level 61, m at next level, right associativity).
Notation "m ;; k" := (bind m (fun _ => k))
  (at level 61, right associativity).

(** Running an operation from the empty trace. *)
Definition run {A} (m : M A) (w : World) : Completion A * list Event :=
  m w [].

(* ================================================================== *)
(** * Faucet_Integrate.js *)
(* ================================================================== *)

Definition FAUCET_ADDRESS : string :=
  "0x2F10297555813b8706e9E0eF72fAfAb729516B65".

Definition FAUCET_ABI : list string :=
  [ "function requestTokens(uint256 amount) external";
    "function getRemainingAllowance(address user) external view returns (uint256)";
    "function getFaucetBalance() external view returns (uint256)";
    "function tryAutoMint() public";
    "function timeUntilNextAutoMint() external view returns (uint256)";
    "function lastAutoMintTime() external view returns (uint256)";
    "function forceAutoMint() external";
    "function withdrawTokens(uint256 amount) external";
    "function setMaxTokensPerDay(uint256 _maxTokensPerDay) external";
    "function usdcToken() external view returns (address)";
    "function owner() external view returns (address)";
    "function maxTokensPerDay() external view returns (uint256)" ].

(** The errors the module creates itself, under the names of the error
    taxonomy. *)
Definition ProviderUnavailable : JsError := mkError "MetaMask not detected".
Definition ConfigurationError : JsError :=
  mkError "Faucet contract address is undefined".
Definition InvalidAmount : JsError := mkError "Amount is required".

(** Every function of the module is a [try] block and its [catch] clause;
    [f_try] is the block of [f] and [f_catch] the clause. *)

(** [getFaucetContract], with the module constant [FAUCET_ADDRESS] as a
    parameter; [None] is an address left undefined. *)
Definition getFaucetContract_try (address : option string) : M Contract :=
  call NewBrowserProvider ;;
  signer <- call GetSigner ;;
  match address with
  | Some a =>
      if negb (ToBoolean (JsString a)) then throw ConfigurationError
      else ret {| target := a; abi := FAUCET_ABI;
                  runner := SignerRunner signer |}
  | None => throw ConfigurationError
  end.

Definition getFaucetContract_catch (error : JsError) : M Contract :=
  console_error [text "Failed to get faucet contract:"; LogError error] ;;
  throw error.

Definition getFaucetContract_at (address : option string) : M Contract :=
  present <- ethereum ;;
  if negb present then throw ProviderUnavailable
  else try_catch (getFaucetContract_try address) getFaucetContract_catch.

Definition getFaucetContract : M Contract :=
  getFaucetContract_at (Some FAUCET_ADDRESS).

(** Request tokens from the faucet. *)
Definition requestTokens_try (amount : JsValue) : M TransactionResponse :=
  contract <- getFaucetContract ;;
  console_log
    [text ("Requesting " ++ ToString amount ++ " USDC from faucet")%string] ;;
  amountInWei <- lift (Ethers.parseUnits (ToString amount) 6) ;;
  tx <- call (CallRequestTokens contract amountInWei) ;;
  console_log [text "Transaction sent:"; text (hash tx)] ;;
  call (Wait tx) ;;
  console_log [text "Successfully received tokens from faucet"] ;;
  ret tx.

Definition requestTokens_catch (error : JsError) : M TransactionResponse :=
  console_error [text "Faucet request failed:"; LogError error] ;;
  throw error.

Definition requestTokens (amount : JsValue) : M TransactionResponse :=
  if negb (ToBoolean amount) then throw InvalidAmount
  else try_catch (requestTokens_try amount) requestTokens_catch.

(** [accounts[0]] *)
Definition first_account (accounts : list string) : JsValue :=
  match accounts with
  | a :: _ => JsString a
  | [] => JsUndefined
  end.

(** Get remaining tokens allowance for the day. *)
Definition getRemainingAllowance_try : M string :=
  contract <- getFaucetContract ;;
  accounts <- call EthRequestAccounts ;;
  let userAddress := first_account accounts in
  console_log [text "Getting allowance for:"; LogValue userAddress] ;;
  remainingWei <- call (CallGetRemainingAllowance contract userAddress) ;;
  formatted <- lift (Ethers.formatUnits remainingWei 6) ;;
  console_log [text "Remaining allowance:"; text formatted] ;;
  ret formatted.

Definition getRemainingAllowance_catch (error : JsError) : M string :=
  console_error [text "Failed to get remaining allowance:"; LogError error] ;;
  throw error.

Definition getRemainingAllowance : M string :=
  try_catch getRemainingAllowance_try getRemainingAllowance_catch.

Definition EXPECTED_USDC : string :=
  "0x1904f0522FC7f10517175Bd0E546430f1CF0B9Fa".

Definition TOKEN_ABI : list string :=
  [ "function balanceOf(address) view returns (uint256)";
    "function decimals() view returns (uint8)" ].

(** The contract object of the direct balance check. *)
Definition usdcContract (tokenAddress : string) : Contract :=
  {| target := tokenAddress; abi := TOKEN_ABI; runner := ProviderRunner |}.

Definition mismatch_warning : list Logged :=
  [text "⚠️ CRITICAL: USDC addresses don't match! Faucet is using wrong token."].

(** Get faucet balance with debugging. *)
Definition getFaucetBalance_try : M string :=
  console_log [text "Getting faucet balance..."] ;;
  contract <- getFaucetContract ;;
  tokenAddress <- call (CallUsdcToken contract) ;;
  console_log [text "USDC token address from faucet:"; text tokenAddress] ;;
  console_log [text "Expected USDC address:"; text EXPECTED_USDC] ;;
  (if negb (String.eqb (toLowerCase tokenAddress) (toLowerCase EXPECTED_USDC))
   then console_error mismatch_warning
   else ret tt) ;;
  console_log [text "Connected to contract at:"; text FAUCET_ADDRESS] ;;
  balanceWei <- call (CallGetFaucetBalance contract) ;;
  console_log [text "Raw balance (BigInt):"; text (BigInt_toString balanceWei)] ;;
  formattedBalance <- lift (Ethers.formatUnits balanceWei 6) ;;
  console_log [text "Formatted balance:"; text formattedBalance] ;;
  call NewBrowserProvider ;;
  decimals <- call (CallDecimals (usdcContract tokenAddress)) ;;
  console_log [text "USDC token decimals:"; LogValue (JsBigInt decimals)] ;;
  directBalance <- call (CallBalanceOf (usdcContract tokenAddress) FAUCET_ADDRESS) ;;
  direct <- lift (Ethers.formatUnits_big directBalance decimals) ;;
  console_log [text "Direct balance check:"; text direct] ;;
  ret formattedBalance.

Definition getFaucetBalance_catch (error : JsError) : M string :=
  console_error [text "Failed to get faucet balance:"; LogError error] ;;
  console_error [text "Error details:"; text (message error)] ;;
  ret "0".

Definition getFaucetBalance : M string :=
  try_catch getFaucetBalance_try getFaucetBalance_catch.

(** Trigger the auto-mint check. *)
Definition triggerAutoMint_try : M TransactionResponse :=
  contract <- getFaucetContract ;;
  console_log [text "Triggering auto-mint check..."] ;;
  tx <- call (CallTryAutoMint contract) ;;
  console_log [text "Auto-mint transaction sent:"; text (hash tx)] ;;
  call (Wait tx) ;;
  console_log [text "Auto-mint check completed"] ;;
  ret tx.

Definition triggerAutoMint_catch (error : JsError) : M TransactionResponse :=
  console_error [text "Auto-mint trigger failed:"; LogError error] ;;
  throw error.

Definition triggerAutoMint : M TransactionResponse :=
  try_catch triggerAutoMint_try triggerAutoMint_catch.

(** Force auto-mint (owner only). *)
Definition forceAutoMint_try : M TransactionResponse :=
  contract <- getFaucetContract ;;
  console_log [text "Forcing auto-mint..."] ;;
  tx <- call (CallForceAutoMint contract) ;;
  console_log [text "Force auto-mint transaction sent:"; text (hash tx)] ;;
  call (Wait tx) ;;
  console_log [text "Force auto-mint completed"] ;;
  ret tx.

Definition forceAutoMint_catch (error : JsError) : M TransactionResponse :=
  console_error [text "Force auto-mint failed:"; LogError error] ;;
  throw error.

Definition forceAutoMint : M TransactionResponse :=
  try_catch forceAutoMint_try forceAutoMint_catch.

(** The object [getTimeUntilNextAutoMint] returns. *)
Record AutoMintTime : Type :=
  { timeInSeconds : string; formatted : string; isAvailableNow : bool }.

(** The template literal of the breakdown. *)
Definition breakdown (days hours minutes : Number) : string :=
  (Number_toString days ++ " days, " ++ Number_toString hours ++ " hours, "
   ++ Number_toString minutes ++ " minutes")%string.

(** The object built from the duration the contract returned. *)
Definition time_result (timeInSeconds : Z) : AutoMintTime :=
  (* Convert BigInt to Number for calculations *)
  let timeInSecondsNumber := Number_of_BigInt timeInSeconds in
  (* Convert to days, hours, minutes format *)
  let days :=
    Math_floor (Number_div timeInSecondsNumber (Number_of_BigInt 86400)) in
  let hours :=
    Math_floor
      (Number_div (Number_rem timeInSecondsNumber (Number_of_BigInt 86400))
                  (Number_of_BigInt 3600)) in
  let minutes :=
    Math_floor
      (Number_div (Number_rem timeInSecondsNumber (Number_of_BigInt 3600))
                  (Number_of_BigInt 60)) in
  {| timeInSeconds := BigInt_toString timeInSeconds;
     formatted := breakdown days hours minutes;
     isAvailableNow := String.eqb (BigInt_toString timeInSeconds) "0" |}.

(** Get time until next auto-mint. *)
Definition getTimeUntilNextAutoMint_try : M AutoMintTime :=
  contract <- getFaucetContract ;;
  console_log [text "Checking time until next auto-mint..."] ;;
  timeInSeconds <- call (CallTimeUntilNextAutoMint contract) ;;
  console_log [text "Time until next auto-mint (seconds):";
               text (BigInt_toString timeInSeconds)] ;;
  let result := time_result timeInSeconds in
  console_log [text "Formatted time:"; text (formatted result)] ;;
  ret result.

Definition getTimeUntilNextAutoMint_catch (error : JsError) : M AutoMintTime :=
  console_error
    [text "Failed to get time until next auto-mint:"; LogError error] ;;
  ret {| timeInSeconds := "0"; formatted := "Error"; isAvailableNow := false |}.

Definition getTimeUntilNextAutoMint : M AutoMintTime :=
  try_catch getTimeUntilNextAutoMint_try getTimeUntilNextAutoMint_catch.

(** ** A wallet that is connected, and one whose user declines *)

(** The ABI encoder of a contract call refuses an argument outside
    [uint256]. *)
Definition uint256 (n : Z) : bool := (0 <=? n) && (n <? 2 ^ 256).

(** A connected wallet in front of a faucet that is linked to the token at
    [token], holds [balance] and lets the next auto-mint wait for [wait]
    seconds. *)
Definition connected_to (token : string) (balance wait : Z) : World :=
  {| window_ethereum := true;
     respond := fun _ c =>
       match c return Completion (Resp c) with
       | NewBrowserProvider => Normal tt
       | GetSigner => Normal {| signer_address := "0xA11ce" |}
       | EthRequestAccounts => Normal ["0xA11ce"; "0xB0b"]
       | CallRequestTokens _ amount =>
           if uint256 amount then Normal {| hash := "0x01" |}
           else Throw (mkError "value out-of-bounds")
       | CallTryAutoMint _ | CallForceAutoMint _ => Normal {| hash := "0x02" |}
       | CallGetRemainingAllowance _ _ => Normal 2500000
       | CallGetFaucetBalance _ | CallBalanceOf _ _ => Normal balance
       | CallTimeUntilNextAutoMint _ => Normal wait
       | CallDecimals _ => Normal 6
       | CallUsdcToken _ => Normal token
       | Wait _ => Normal tt
       end |}.

(** The expected token, as a node that does not checksum addresses
    returns it. *)
Definition usdc_lower : string := "0x1904f0522fc7f10517175bd0e546430f1cf0b9fa".

Definition connected : Z -> Z -> World := connected_to usdc_lower.

Definition user_rejected : JsError := mkError "user rejected the request".

(** A wallet that is installed, but whose user declines the connection. *)
Definition declined : World :=
  {| window_ethereum := true;
     respond := fun _ c =>
       match c return Completion (Resp c) with
       | NewBrowserProvider => Normal tt
       | _ => Throw user_rejected
       end |}.

(** No wallet extension at all. *)
Definition no_wallet : World :=
  {| window_ethereum := false;
     respond := fun _ c => Throw (mkError "no provider") |}.

(* ================================================================== *)
(** * The vocabulary of the statements *)
(* ================================================================== *)

(** The fold of [digits_val], from any accumulator. *)
Definition digits_from (acc : Z) (l : list ascii) : Z :=
  fold_left (fun a c => 10 * a + digit_val c) l acc.

(** The decimal quantity a string in plain positional notation denotes:
    the digits before and after the point, read as one integer, over the
    power of ten of the number of digits after the point. *)
Definition decimal_value (s : string) : option Q :=
  match Ethers.match_decimal (list_ascii_of_string s) with
  | Some (neg, whole, frac) =>
      if (List.length whole + List.length frac =? 0)%nat then None
      else Some (Qmake (Ethers.BigInt_of_digits neg (whole ++ frac))
                       (Z.to_pos (10 ^ Z.of_nat (List.length frac))))
  | None => None
  end.

(** The number of digits after the point. *)
Definition fraction_digits (s : string) : nat :=
  match Ethers.match_decimal (list_ascii_of_string s) with
  | Some (_, _, frac) => List.length frac
  | None => O
  end.

(** Unfolding the monad, and splitting on the next interaction. *)
Ltac unfold_monad :=
  cbv beta iota delta
    [bind try_catch call console_log console_error console ret throw lift
     ethereum run].

Ltac next_response :=
  match goal with
  | |- context [match respond ?w ?t ?c with _ => _ end] =>
      let R := fresh "R" in
      destruct (respond w t c) eqn:R; cbv beta iota
  end.

Definition contract_failure (e : JsError) : Event :=
  Console Error [text "Failed to get faucet contract:"; LogError e].

(** The values [!amount] holds for. *)
Inductive falsy : JsValue -> Prop :=
  | falsy_undefined : falsy JsUndefined
  | falsy_null : falsy JsNull
  | falsy_false : falsy (JsBoolean false)
  | falsy_zero (s : bool) : falsy (JsNumber (S754_zero s))
  | falsy_NaN : falsy (JsNumber NaN)
  | falsy_empty : falsy (JsString "")
  | falsy_0n : falsy (JsBigInt 0).

Definition minus_five : Number := Number_of_BigInt (- 5).

(** The sentinel of a failed read. *)
Definition time_sentinel : AutoMintTime :=
  {| timeInSeconds := "0"; formatted := "Error"; isAvailableNow := false |}.

Definition time_failure (e : JsError) : Event :=
  Console Error [text "Failed to get time until next auto-mint:"; LogError e].

(** The read of the duration: the contract is obtained and its
    [timeUntilNextAutoMint()] is called.  Nothing else in the [try] block
    can throw. *)
Definition read_time : M Z :=
  contract <- getFaucetContract ;;
  console_log [text "Checking time until next auto-mint..."] ;;
  call (CallTimeUntilNextAutoMint contract).

Definition allowance_failure (e : JsError) : Event :=
  Console Error [text "Failed to get remaining allowance:"; LogError e].

(** The trace when the contract call is made: the accounts were requested
    and the first one was logged. *)
Definition allowance_query (t1 : list Event) (accounts : list string)
  : list Event :=
  (t1 ++ [Called EthRequestAccounts])
    ++ [Console Log [text "Getting allowance for:";
                     LogValue (first_account accounts)]].

(** Where an error of [getRemainingAllowance] can come from: the provider,
    while the contract is obtained; the account request; the contract
    call; the decoding of what the contract returned. *)
Inductive allowance_error (w : World) (t0 : list Event) (e : JsError) : Prop :=
  | error_of_provider t1 :
      getFaucetContract w t0 = (Throw e, t1) ->
      allowance_error w t0 e
  | error_of_accounts c t1 :
      getFaucetContract w t0 = (Normal c, t1) ->
      respond w t1 EthRequestAccounts = Throw e ->
      allowance_error w t0 e
  | error_of_contract c t1 accounts :
      getFaucetContract w t0 = (Normal c, t1) ->
      respond w t1 EthRequestAccounts = Normal accounts ->
      respond w (allowance_query t1 accounts)
        (CallGetRemainingAllowance c (first_account accounts)) = Throw e ->
      allowance_error w t0 e
  | error_of_decoding c t1 accounts remainingWei :
      getFaucetContract w t0 = (Normal c, t1) ->
      respond w t1 EthRequestAccounts = Normal accounts ->
      respond w (allowance_query t1 accounts)
        (CallGetRemainingAllowance c (first_account accounts))
      = Normal remainingWei ->
      Ethers.formatUnits remainingWei 6 = Throw e ->
      allowance_error w t0 e.

(** The handle the connected wallet gives. *)
Definition connected_contract : Contract :=
  {| target := FAUCET_ADDRESS; abi := FAUCET_ABI;
     runner := SignerRunner {| signer_address := "0xA11ce" |} |}.

(** The calls of the direct balance check on the token contract. *)
Definition cross_validation (c : Call) : bool :=
  match c with
  | CallDecimals _ | CallBalanceOf _ _ => true
  | _ => false
  end.

(** The world [w], with a token contract that answers [decimals] and
    [directBalance]. *)
Definition with_token (w : World) (decimals directBalance : Z) : World :=
  {| window_ethereum := window_ethereum w;
     respond := fun t c =>
       match c as c' return Completion (Resp c') with
       | CallDecimals _ => Normal decimals
       | CallBalanceOf _ _ => Normal directBalance
       | c' => respond w t c'
       end |}.

Definition balance_failure (e : JsError) : list Event :=
  [Console Error [text "Failed to get faucet balance:"; LogError e];
   Console Error [text "Error details:"; text (message e)]].

Definition balance_started : Event :=
  Console Log [text "Getting faucet balance..."].

(** The trace once the token address is read, logged and compared. *)
Definition token_checked (t1 : list Event) (c : Contract) (tokenAddress : string)
  : list Event :=
  ((t1 ++ [Called (CallUsdcToken c)])
     ++ [Console Log [text "USDC token address from faucet:"; text tokenAddress]])
    ++ [Console Log [text "Expected USDC address:"; text EXPECTED_USDC]].

Definition mismatch (tokenAddress : string) : bool :=
  negb (String.eqb (toLowerCase tokenAddress) (toLowerCase EXPECTED_USDC)).

Definition mismatch_reported (t : list Event) (tokenAddress : string)
  : list Event :=
  if mismatch tokenAddress then t ++ [Console Error mismatch_warning] else t.

(** The rest of the [try] block of [getFaucetBalance], after the
    comparison of the token addresses. *)
Definition balance_rest (contract : Contract) (tokenAddress : string)
  : M string :=
  console_log [text "Connected to contract at:"; text FAUCET_ADDRESS] ;;
  balanceWei <- call (CallGetFaucetBalance contract) ;;
  console_log [text "Raw balance (BigInt):"; text (BigInt_toString balanceWei)] ;;
  formattedBalance <- lift (Ethers.formatUnits balanceWei 6) ;;
  console_log [text "Formatted balance:"; text formattedBalance] ;;
  call NewBrowserProvider ;;
  decimals <- call (CallDecimals (usdcContract tokenAddress)) ;;
  console_log [text "USDC token decimals:"; LogValue (JsBigInt decimals)] ;;
  directBalance <- call (CallBalanceOf (usdcContract tokenAddress) FAUCET_ADDRESS) ;;
  direct <- lift (Ethers.formatUnits_big directBalance decimals) ;;
  console_log [text "Direct balance check:"; text direct] ;;
  ret formattedBalance.

Definition connected_logged : Event :=
  Console Log [text "Connected to contract at:"; text FAUCET_ADDRESS].

Definition warning : Event := Console Error mismatch_warning.

Definition direct_logged (direct : string) : Event :=
  Console Log [text "Direct balance check:"; text direct].

(** The interactions of a trace, in the order they were made. *)
Definition calls (trace : list Event) : list Call :=
  flat_map (fun ev => match ev with Called c => [c] | Console _ _ => [] end)
           trace.

(** The interactions that change the state of the chain: a transaction is
    submitted, or its inclusion is awaited. *)
Definition state_changing (c : Call) : bool :=
  match c with
  | CallRequestTokens _ _ | CallTryAutoMint _ | CallForceAutoMint _ | Wait _ =>
      true
  | _ => false
  end.

Definition request_failure (e : JsError) : Event :=
  Console Error [text "Faucet request failed:"; LogError e].

Definition trigger_failure (e : JsError) : Event :=
  Console Error [text "Auto-mint trigger failed:"; LogError e].

Definition force_failure (e : JsError) : Event :=
  Console Error [text "Force auto-mint failed:"; LogError e].

(** Splitting on every interaction and conversion that is left. *)
Ltac all_paths :=
  repeat match goal with
  | |- context [match respond ?w ?t ?c with _ => _ end] =>
      destruct (respond w t c); cbv beta iota
  | |- context [match Ethers.formatUnits ?a ?b with _ => _ end] =>
      destruct (Ethers.formatUnits a b); cbv beta iota
  | |- context [match Ethers.formatUnits_big ?a ?b with _ => _ end] =>
      destruct (Ethers.formatUnits_big a b); cbv beta iota
  | |- context [match Ethers.parseUnits ?a ?b with _ => _ end] =>
      destruct (Ethers.parseUnits a b); cbv beta iota
  | |- context [if negb ?b then _ else _] => destruct b; cbv beta iota delta [negb]
  end.

(** The trace when [tryAutoMint()] is called, and when its transaction is
    awaited. *)
Definition trigger_requested (t1 : list Event) : list Event :=
  t1 ++ [Console Log [text "Triggering auto-mint check..."]].

Definition trigger_sent (t1 : list Event) (c : Contract)
    (tx : TransactionResponse) : list Event :=
  (trigger_requested t1 ++ [Called (CallTryAutoMint c)])
    ++ [Console Log [text "Auto-mint transaction sent:"; text (hash tx)]].

(** How a run of [triggerAutoMint] from the trace [t0] can end. *)
Inductive trigger_run (w : World) (t0 : list Event)
  : Completion TransactionResponse -> Prop :=
  | trigger_no_contract e t1 :
      getFaucetContract w t0 = (Throw e, t1) ->
      trigger_run w t0 (Throw e)
  | trigger_not_sent e c t1 :
      getFaucetContract w t0 = (Normal c, t1) ->
      respond w (trigger_requested t1) (CallTryAutoMint c) = Throw e ->
      trigger_run w t0 (Throw e)
  | trigger_not_included e c t1 tx :
      getFaucetContract w t0 = (Normal c, t1) ->
      respond w (trigger_requested t1) (CallTryAutoMint c) = Normal tx ->
      respond w (trigger_sent t1 c tx) (Wait tx) = Throw e ->
      trigger_run w t0 (Throw e)
  | trigger_included c t1 tx :
      getFaucetContract w t0 = (Normal c, t1) ->
      respond w (trigger_requested t1) (CallTryAutoMint c) = Normal tx ->
      respond w (trigger_sent t1 c tx) (Wait tx) = Normal tt ->
      trigger_run w t0 (Normal tx).

(** The same for [forceAutoMint]. *)
Definition force_requested (t1 : list Event) : list Event :=
  t1 ++ [Console Log [text "Forcing auto-mint..."]].

Definition force_sent (t1 : list Event) (c : Contract)
    (tx : TransactionResponse) : list Event :=
  (force_requested t1 ++ [Called (CallForceAutoMint c)])
    ++ [Console Log [text "Force auto-mint transaction sent:"; text (hash tx)]].

Inductive force_run (w : World) (t0 : list Event)
  : Completion TransactionResponse -> Prop :=
  | force_no_contract e t1 :
      getFaucetContract w t0 = (Throw e, t1) ->
      force_run w t0 (Throw e)
  | force_not_sent e c t1 :
      getFaucetContract w t0 = (Normal c, t1) ->
      respond w (force_requested t1) (CallForceAutoMint c) = Throw e ->
      force_run w t0 (Throw e)
  | force_not_included e c t1 tx :
      getFaucetContract w t0 = (Normal c, t1) ->
      respond w (force_requested t1) (CallForceAutoMint c) = Normal tx ->
      respond w (force_sent t1 c tx) (Wait tx) = Throw e ->
      force_run w t0 (Throw e)
  | force_included c t1 tx :
      getFaucetContract w t0 = (Normal c, t1) ->
      respond w (force_requested t1) (CallForceAutoMint c) = Normal tx ->
      respond w (force_sent t1 c tx) (Wait tx) = Normal tt ->
      force_run w t0 (Normal tx).

(** The amounts a trace submitted to [requestTokens(uint256)]. *)
Definition requested_amounts (trace : list Event) : list Z :=
  flat_map (fun ev =>
              match ev with
              | Called (CallRequestTokens _ amount) => [amount]
              | _ => []
              end) trace.

Definition requesting (amount : JsValue) : Event :=
  Console Log
    [text ("Requesting " ++ ToString amount ++ " USDC from faucet")%string].

(** The trace when the faucet balance is read and shown. *)
Definition balance_shown (t : list Event) (c : Contract) (balanceWei : Z)
    (shown : string) : list Event :=
  (((t ++ [connected_logged]) ++ [Called (CallGetFaucetBalance c)])
     ++ [Console Log [text "Raw balance (BigInt):";
                      text (BigInt_toString balanceWei)]])
    ++ [Console Log [text "Formatted balance:"; text shown]].

(** Where the direct balance check that starts at the trace [t] can fail:
    the second provider, the token's [decimals()], its [balanceOf()], or
    the printing of the direct balance. *)
Inductive direct_check_error (w : World) (t : list Event)
    (tokenAddress : string) (e : JsError) : Prop :=
  | direct_no_provider :
      respond w t NewBrowserProvider = Throw e ->
      direct_check_error w t tokenAddress e
  | direct_no_decimals :
      respond w t NewBrowserProvider = Normal tt ->
      respond w (t ++ [Called NewBrowserProvider])
        (CallDecimals (usdcContract tokenAddress)) = Throw e ->
      direct_check_error w t tokenAddress e
  | direct_no_balance decimals :
      respond w t NewBrowserProvider = Normal tt ->
      respond w (t ++ [Called NewBrowserProvider])
        (CallDecimals (usdcContract tokenAddress)) = Normal decimals ->
      respond w
        (((t ++ [Called NewBrowserProvider])
            ++ [Called (CallDecimals (usdcContract tokenAddress))])
           ++ [Console Log [text "USDC token decimals:";
                            LogValue (JsBigInt decimals)]])
        (CallBalanceOf (usdcContract tokenAddress) FAUCET_ADDRESS) = Throw e ->
      direct_check_error w t tokenAddress e
  | direct_not_printed decimals directBalance :
      respond w t NewBrowserProvider = Normal tt ->
      respond w (t ++ [Called NewBrowserProvider])
        (CallDecimals (usdcContract tokenAddress)) = Normal decimals ->
      respond w
        (((t ++ [Called NewBrowserProvider])
            ++ [Called (CallDecimals (usdcContract tokenAddress))])
           ++ [Console Log [text "USDC token decimals:";
                            LogValue (JsBigInt decimals)]])
        (CallBalanceOf (usdcContract tokenAddress) FAUCET_ADDRESS)
      = Normal directBalance ->
      Ethers.formatUnits_big directBalance decimals = Throw e ->
      direct_check_error w t tokenAddress e.

(** The world [w], in front of a token address that holds no token
    contract: its [decimals()] and [balanceOf()] fail. *)
Definition without_token (w : World) : World :=
  {| window_ethereum := window_ethereum w;
     respond := fun t c =>
       match c as c' return Completion (Resp c') with
       | CallDecimals _ => Throw (mkError "could not decode result data")
       | CallBalanceOf _ _ => Throw (mkError "could not decode result data")
       | c' => respond w t c'
       end |}.

(** A wallet whose account request returns no account. *)
Definition no_account : World :=
  {| window_ethereum := true;
     respond := fun t c =>
       match c as c' return Completion (Resp c') with
       | EthRequestAccounts => Normal []
       | CallGetRemainingAllowance _ _ =>
           Throw (mkError "invalid address")
       | c' => respond (connected 0 0) t c'
       end |}.

(** The letters ['A'] to ['Z']. *)
Definition upper_case (c : ascii) : bool :=
  ((65 <=? N_of_ascii c) && (N_of_ascii c <=? 90))%N.

(** The same character, or the two cases of one letter: a capital and the
    character 32 places after it. *)
Definition same_letter (a b : ascii) : bool :=
  Ascii.eqb a b
  || (upper_case a && (N_of_ascii b =? N_of_ascii a + 32)%N)
  || (upper_case b && (N_of_ascii a =? N_of_ascii b + 32)%N).

(** Two texts that differ at most in the case of their letters. *)
Fixpoint same_ignoring_case (s1 s2 : string) : bool :=
  match s1, s2 with
  | EmptyString, EmptyString => true
  | String a r1, String b r2 => same_letter a b && same_ignoring_case r1 r2
  | _, _ => false
  end.

(** The trace once the token address is compared with the expected one:
    the warning is added when the two differ in more than the case of
    their letters. *)
Definition addresses_compared (t1 : list Event) (c : Contract)
    (tokenAddress : string) : list Event :=
  if same_ignoring_case tokenAddress EXPECTED_USDC
  then token_checked t1 c tokenAddress
  else token_checked t1 c tokenAddress ++ [warning].

(** The trace once the token contract has answered its decimals. *)
Definition decimals_shown (t : list Event) (tokenAddress : string)
    (decimals : Z) : list Event :=
  ((t ++ [Called NewBrowserProvider])
     ++ [Called (CallDecimals (usdcContract tokenAddress))])
    ++ [Console Log [text "USDC token decimals:"; LogValue (JsBigInt decimals)]].

(** The address of some other token. *)
Definition wrong_token : string := "0x00000000000000000000000000000000DeaDBeef".

(* ================================================================== *)
(** * Decimal digits and the numbers they denote *)
(* ================================================================== *)

Section Digits.

Lemma digit_range (n : Z) : 0 <= n mod 10 < 10.
Proof. apply Z.mod_pos_bound; lia. Qed.

Lemma small_cases (d : Z) :
  0 <= d < 10 ->
  d = 0 \/ d = 1 \/ d = 2 \/ d = 3 \/ d = 4 \/
  d = 5 \/ d = 6 \/ d = 7 \/ d = 8 \/ d = 9.
Proof. lia. Qed.

Lemma digit_val_char (d : Z) : 0 <= d < 10 -> digit_val (digit_char d) = d.
Proof.
  intros H. destruct (small_cases d H) as [E | R]; [subst; reflexivity |].
  repeat (destruct R as [E | R]; [subst; reflexivity |]).
  subst; reflexivity.
Qed.

Lemma is_digit_char (d : Z) : 0 <= d < 10 -> is_digit (digit_char d) = true.
Proof.
  intros H. destruct (small_cases d H) as [E | R]; [subst; reflexivity |].
  repeat (destruct R as [E | R]; [subst; reflexivity |]).
  subst; reflexivity.
Qed.

(** A digit is neither the point nor the minus sign. *)
Lemma is_digit_not_dot (c : ascii) :
  is_digit c = true -> Ascii.eqb c dot_char = false.
Proof.
  intros H. destruct (Ascii.eqb_spec c dot_char) as [-> | ]; [discriminate H | reflexivity].
Qed.

Lemma is_digit_not_minus (c : ascii) :
  is_digit c = true -> Ascii.eqb c minus_char = false.
Proof.
  intros H. destruct (Ascii.eqb_spec c minus_char) as [-> | ]; [discriminate H | reflexivity].
Qed.

Lemma digit_val_zero : digit_val zero_char = 0.
Proof. reflexivity. Qed.

Lemma digit_val_nonneg (c : ascii) : is_digit c = true -> 0 <= digit_val c.
Proof.
  unfold is_digit, digit_val. intros H.
  apply andb_true_iff in H as [H _]. apply N.leb_le in H. lia.
Qed.

Lemma digits_from_shift (l : list ascii) (acc : Z) :
  digits_from acc l = acc * 10 ^ Z.of_nat (List.length l) + digits_val l.
Proof.
  unfold digits_val. fold (digits_from 0 l). revert acc.
  induction l as [| c l IH]; intros acc.
  - simpl. lia.
  - cbn [digits_from fold_left]. fold (digits_from (10 * acc + digit_val c) l).
    fold (digits_from (10 * 0 + digit_val c) l).
    rewrite (IH (10 * acc + digit_val c)), (IH (10 * 0 + digit_val c)).
    replace (Z.of_nat (List.length (c :: l))) with (Z.of_nat (List.length l) + 1)
      by (simpl List.length; lia).
    rewrite Z.pow_add_r by lia. lia.
Qed.

Lemma digits_val_cons (c : ascii) (l : list ascii) :
  digits_val (c :: l) = digit_val c * 10 ^ Z.of_nat (List.length l) + digits_val l.
Proof.
  unfold digits_val at 1. cbn [fold_left].
  fold (digits_from (10 * 0 + digit_val c) l).
  rewrite digits_from_shift. lia.
Qed.

Lemma digits_val_app (l1 l2 : list ascii) :
  digits_val (l1 ++ l2) =
  digits_val l1 * 10 ^ Z.of_nat (List.length l2) + digits_val l2.
Proof.
  unfold digits_val at 1. rewrite fold_left_app.
  fold (digits_val l1). fold (digits_from (digits_val l1) l2).
  apply digits_from_shift.
Qed.

Lemma digits_val_zeros (k : nat) : digits_val (repeat zero_char k) = 0.
Proof.
  induction k as [| k IH]; [reflexivity |].
  cbn [repeat]. rewrite digits_val_cons, IH, digit_val_zero. lia.
Qed.

Lemma digits_val_nonneg (l : list ascii) :
  forallb is_digit l = true -> 0 <= digits_val l.
Proof.
  induction l as [| c l IH]; intros H; [reflexivity |].
  cbn [forallb] in H. apply andb_true_iff in H as [Hc Hl].
  rewrite digits_val_cons. pose proof (digit_val_nonneg c Hc).
  specialize (IH Hl). nia.
Qed.

(** Zeros in front do not count, zeros behind multiply by ten. *)
Lemma digits_val_leading (k : nat) (l : list ascii) :
  digits_val (repeat zero_char k ++ l) = digits_val l.
Proof. rewrite digits_val_app, digits_val_zeros. lia. Qed.

Lemma digits_val_trailing (k : nat) (l : list ascii) :
  digits_val (l ++ repeat zero_char k) = digits_val l * 10 ^ Z.of_nat k.
Proof. rewrite digits_val_app, digits_val_zeros, repeat_length. lia. Qed.

Lemma forallb_repeat_zero (f : ascii -> bool) (k : nat) :
  f zero_char = true -> forallb f (repeat zero_char k) = true.
Proof. intros H. induction k; cbn; [reflexivity | now rewrite H]. Qed.

Lemma size_bound (p : positive) : Zpos p < 2 ^ Z.of_nat (Pos.size_nat p).
Proof.
  induction p as [p IH | p IH |]; cbn [Pos.size_nat].
  - rewrite Nat2Z.inj_succ, Z.pow_succ_r by lia. lia.
  - rewrite Nat2Z.inj_succ, Z.pow_succ_r by lia. lia.
  - reflexivity.
Qed.

(** With enough fuel, [digits_fuel] writes the digits of [n] before [acc]. *)
Lemma digits_fuel_spec (fuel : nat) :
  forall n acc, 0 < n < 2 ^ Z.of_nat fuel ->
    exists ds,
      digits_fuel fuel n acc = ds ++ acc /\ ds <> [] /\
      forallb is_digit ds = true /\ digits_val ds = n.
Proof.
  induction fuel as [| f IH]; intros n acc Hn.
  - simpl in Hn. lia.
  - cbn [digits_fuel]. pose proof (digit_range n) as Hd.
    destruct (Z.ltb_spec n 10) as [Hs | Hs].
    + exists [digit_char (n mod 10)]. repeat split.
      * discriminate.
      * cbn. now rewrite is_digit_char.
      * rewrite digits_val_cons, digit_val_char by assumption.
        cbn. rewrite Z.mod_small by lia. lia.
    + assert (Hq : 0 < n / 10 < 2 ^ Z.of_nat f).
      { rewrite Nat2Z.inj_succ, Z.pow_succ_r in Hn by lia. split.
        - apply Z.div_str_pos. lia.
        - apply Z.div_lt_upper_bound; lia. }
      destruct (IH (n / 10) (digit_char (n mod 10) :: acc) Hq)
        as (ds & E & Hne & Hall & Hval).
      exists (ds ++ [digit_char (n mod 10)]). repeat split.
      * rewrite E, <- app_assoc. reflexivity.
      * destruct ds; discriminate.
      * rewrite forallb_app, Hall. cbn. now rewrite is_digit_char.
      * rewrite digits_val_app, Hval. cbn [List.length].
        rewrite digits_val_cons, digit_val_char by assumption. cbn.
        pose proof (Z.div_mod n 10). lia.
Qed.

Lemma nat_digits_spec (n : Z) :
  0 <= n ->
  nat_digits n <> [] /\ forallb is_digit (nat_digits n) = true /\
  digits_val (nat_digits n) = n.
Proof.
  intros Hn. destruct n as [| p | p]; [repeat split; discriminate | | lia].
  destruct (digits_fuel_spec (Pos.size_nat p) (Zpos p) [])
    as (ds & E & Hne & Hall & Hval).
  - split; [lia | apply size_bound].
  - unfold nat_digits. rewrite E, app_nil_r. auto.
Qed.

(** Printing a BigInt gives ["0"] for zero only. *)
Lemma BigInt_toString_zero (n : Z) :
  String.eqb (BigInt_toString n) "0" = true <-> n = 0.
Proof.
  split; [| intros ->; reflexivity].
  intros H. apply String.eqb_eq in H. unfold BigInt_toString in H.
  apply (f_equal list_ascii_of_string) in H.
  rewrite list_ascii_of_string_of_list_ascii in H. cbn in H.
  destruct (Z.ltb_spec n 0) as [Hneg | Hpos]; [discriminate H |].
  destruct (nat_digits_spec n Hpos) as (_ & _ & Hval).
  rewrite H in Hval. cbn in Hval. lia.
Qed.

End Digits.

(* ================================================================== *)
(** * Decimal notation *)
(* ================================================================== *)

Section Conversions.

Import Ethers.

Lemma firstn_repeat (c : ascii) (k : nat) :
  forall n, firstn k (repeat c n) = repeat c (Nat.min k n).
Proof.
  induction k as [| k IH]; intros [| n]; cbn; try reflexivity.
  now rewrite IH.
Qed.

Lemma skipn_repeat (c : ascii) (k : nat) :
  forall n, skipn k (repeat c n) = repeat c (n - k).
Proof.
  induction k as [| k IH]; intros [| n]; cbn; try reflexivity.
  now rewrite IH.
Qed.

Lemma forallb_rev (f : ascii -> bool) (l : list ascii) :
  forallb f (rev l) = forallb f l.
Proof.
  induction l as [| c l IH]; [reflexivity |].
  cbn. rewrite forallb_app, IH. cbn. rewrite andb_true_r. apply andb_comm.
Qed.

Lemma takeWhile_digits (W r : list ascii) :
  forallb is_digit W = true ->
  takeWhile is_digit (W ++ dot_char :: r) = W.
Proof.
  induction W as [| c W IH]; intros H; [reflexivity |].
  cbn in H |- *. apply andb_true_iff in H as [Hc HW].
  now rewrite Hc, IH.
Qed.

Lemma dropWhile_digits (W r : list ascii) :
  forallb is_digit W = true ->
  dropWhile is_digit (W ++ dot_char :: r) = dot_char :: r.
Proof.
  induction W as [| c W IH]; intros H; [reflexivity |].
  cbn in H |- *. apply andb_true_iff in H as [Hc HW].
  now rewrite Hc, IH.
Qed.

(** A text [W.F] matches, with [W] before the point and [F] after it. *)
Lemma match_decimal_point (W F : list ascii) :
  W <> [] -> forallb is_digit W = true -> forallb is_digit F = true ->
  match_decimal (W ++ dot_char :: F) = Some (false, W, F).
Proof.
  intros Hne HW HF. unfold match_decimal.
  destruct W as [| c W]; [contradiction |].
  assert (Hc : is_digit c = true) by (cbn in HW; now apply andb_true_iff in HW).
  cbn [app]. rewrite (is_digit_not_minus c Hc).
  change (c :: W ++ dot_char :: F) with ((c :: W) ++ dot_char :: F).
  rewrite takeWhile_digits, dropWhile_digits by assumption.
  cbn. now rewrite HF.
Qed.

(** The trimming loop on digits that stand before a point: it removes
    zeros in front and leaves at least one digit. *)
Lemma trim_zeros_point (ds r : list ascii) :
  ds <> [] -> forallb is_digit ds = true ->
  exists j W,
    ds = repeat zero_char j ++ W /\ W <> [] /\ forallb is_digit W = true /\
    trim_zeros (ds ++ dot_char :: r) = W ++ dot_char :: r.
Proof.
  induction ds as [| c ds IH]; intros Hne Hall; [contradiction |].
  cbn in Hall. apply andb_true_iff in Hall as [Hc Hds].
  cbn [app trim_zeros].
  destruct (is_zero_char c) eqn:Hz; cbn [andb].
  - destruct ds as [| c' ds'].
    + cbn. exists O, [c]. cbn. rewrite Hc. repeat split; discriminate.
    + cbn [app]. assert (Hc' : is_digit c' = true)
        by (cbn in Hds; now apply andb_true_iff in Hds).
      rewrite (is_digit_not_dot c' Hc'). cbn [negb].
      destruct IH as (j & W & E & HW & HallW & Ht); [discriminate | assumption |].
      exists (S j), W. repeat split; try assumption.
      cbn [repeat app]. rewrite <- E. f_equal.
      unfold is_zero_char in Hz. now apply Ascii.eqb_eq in Hz.
  - exists O, (c :: ds). cbn. rewrite Hc, Hds. repeat split. discriminate.
Qed.

(** The shape of a printed fixed-point number: digits, a point, digits. *)
Lemma toString_shape (n d : Z) :
  0 <= n -> 0 < d <= 80 ->
  exists W F,
    toString n d = W ++ dot_char :: F /\ W <> [] /\
    forallb is_digit W = true /\ forallb is_digit F = true /\
    (1 <= List.length F)%nat /\ Z.of_nat (List.length F) <= d /\
    digits_val (W ++ F) * 10 ^ (d - Z.of_nat (List.length F)) = n.
Proof.
  intros Hn Hd. unfold toString.
  destruct (Z.ltb_spec n 0) as [? | _]; [lia |].
  destruct (Z.eqb_spec d 0) as [? | _]; [lia |].
  rewrite Z.abs_eq by assumption. cbn [app].
  destruct (nat_digits_spec n Hn) as (Hne & Hall & Hval).
  set (str := if Z.of_nat (List.length (nat_digits n)) <=? d
              then Zeros ++ nat_digits n else nat_digits n).
  assert (Hstr : forallb is_digit str = true /\ digits_val str = n /\
                 d < Z.of_nat (List.length str)).
  { subst str. destruct (Z.leb_spec (Z.of_nat (List.length (nat_digits n))) d).
    - unfold Zeros. rewrite forallb_app, forallb_repeat_zero, Hall by reflexivity.
      rewrite digits_val_leading, length_app, repeat_length. repeat split; lia.
    - repeat split; assumption. }
  destruct Hstr as (Hall' & Hval' & Hlen). clearbody str.
  set (index := Z.to_nat (Z.of_nat (List.length str) - d)).
  assert (Hi : (1 <= index <= List.length str)%nat) by (subst index; lia).
  assert (Hsplit := firstn_skipn index str).
  assert (Hlw : List.length (firstn index str) = index)
    by (apply firstn_length_le; lia).
  assert (Hlf : List.length (skipn index str) = Z.to_nat d).
  { rewrite length_skipn. subst index. lia. }
  rewrite <- Hsplit, forallb_app in Hall'.
  apply andb_true_iff in Hall' as [Hw0 Hf0].
  destruct (trim_zeros_point (firstn index str) (skipn index str))
    as (j & W & EW & HW & HallW & Ht);
    [intros E; rewrite E in Hlw; cbn in Hlw; lia | assumption |].
  rewrite Ht.
  replace (rev (W ++ dot_char :: skipn index str))
    with (rev (skipn index str) ++ dot_char :: rev W)
    by (rewrite rev_app_distr; cbn [rev]; now rewrite <- app_assoc).
  destruct (trim_zeros_point (rev (skipn index str)) (rev W))
    as (j' & F' & EF & HF & HallF & Ht');
    [intros E; apply (f_equal (@List.length ascii)) in E;
     rewrite length_rev, Hlf in E; cbn in E; lia
    | now rewrite forallb_rev |].
  rewrite Ht'.
  replace (rev (F' ++ dot_char :: rev W)) with (W ++ dot_char :: rev F')
    by (rewrite rev_app_distr; cbn [rev];
        now rewrite rev_involutive, <- app_assoc).
  assert (Efrac : skipn index str = rev F' ++ repeat zero_char j').
  { rewrite <- (rev_involutive (skipn index str)), EF, rev_app_distr.
    now rewrite rev_repeat. }
  assert (HlF : (List.length (rev F') + j' = Z.to_nat d)%nat).
  { rewrite <- Hlf, Efrac, length_app, repeat_length. reflexivity. }
  exists W, (rev F'). repeat split; try assumption.
  - now rewrite forallb_rev.
  - rewrite length_rev. destruct F'; [contradiction | cbn; lia].
  - lia.
  - rewrite <- Hval', <- Hsplit, EW, Efrac, <- app_assoc, digits_val_leading.
    rewrite app_assoc, digits_val_trailing. f_equal. f_equal. lia.
Qed.

(** Padding the digits after the point up to [d] places. *)
Lemma pad_decimal (frac : list ascii) (d : Z) :
  0 <= d <= 80 -> Z.of_nat (List.length frac) <= d ->
  let decimal :=
    if Z.of_nat (List.length frac) <? d then frac ++ Zeros else frac in
  forallb is_zero_char (skipn (Z.to_nat d) decimal) = true /\
  firstn (Z.to_nat d) decimal =
  frac ++ repeat zero_char (Z.to_nat d - List.length frac).
Proof.
  intros Hd Hlen. cbn zeta.
  destruct (Z.ltb_spec (Z.of_nat (List.length frac)) d) as [Hlt | Hge].
  - rewrite skipn_app, firstn_app, skipn_all2, firstn_all2 by lia.
    unfold Zeros. rewrite skipn_repeat, firstn_repeat. cbn [app]. split.
    + now apply forallb_repeat_zero.
    + f_equal. f_equal. lia.
  - rewrite skipn_all2, firstn_all2 by lia.
    replace (Z.to_nat d - List.length frac)%nat with O by lia.
    cbn. now rewrite app_nil_r.
Qed.

Lemma BigInt_of_digits_trailing (neg : bool) (ds : list ascii) (k : nat) :
  BigInt_of_digits neg (ds ++ repeat zero_char k) =
  BigInt_of_digits neg ds * 10 ^ Z.of_nat k.
Proof.
  unfold BigInt_of_digits. rewrite digits_val_trailing. destruct neg; lia.
Qed.

(** Scaling is exact: a text with at most [d] digits after the point is
    read as its digits, times the power of ten of the missing places. *)
Lemma fromString_exact (s : string) (d : Z) neg whole frac :
  0 <= d <= 80 ->
  match_decimal (list_ascii_of_string s) = Some (neg, whole, frac) ->
  (List.length whole + List.length frac <> 0)%nat ->
  Z.of_nat (List.length frac) <= d ->
  fromString s d =
  checkValue (BigInt_of_digits neg (whole ++ frac)
              * 10 ^ (d - Z.of_nat (List.length frac))).
Proof.
  intros Hd Hm Hne Hlen. unfold fromString. rewrite Hm.
  destruct (Nat.eqb_spec (List.length whole + List.length frac) 0) as [? | _];
    [contradiction |].
  unfold getFormat. destruct (Z.leb_spec d 80) as [_ | ?]; [| lia].
  destruct (pad_decimal frac d Hd Hlen) as [Hz Hf]. cbn zeta in Hz, Hf.
  rewrite Hz, Hf. f_equal.
  rewrite app_assoc, BigInt_of_digits_trailing.
  replace (Z.of_nat (Z.to_nat d - List.length frac))
    with (d - Z.of_nat (List.length frac)) by lia.
  f_equal. unfold BigInt_of_digits.
  assert (E : digits_val (match whole with [] => [zero_char] | _ :: _ => whole end
                          ++ frac) = digits_val (whole ++ frac)).
  { destruct whole; [| reflexivity].
    cbn [app]. rewrite digits_val_cons, digit_val_zero. lia. }
  now rewrite E.
Qed.

End Conversions.

Section RoundTrip.

Import Ethers.

Lemma pow10_pos (k : Z) : 0 <= k -> 0 < 10 ^ k.
Proof. intros H. apply Z.pow_pos_nonneg; lia. Qed.

Lemma pow10_den (k : nat) : Zpos (Z.to_pos (10 ^ Z.of_nat k)) = 10 ^ Z.of_nat k.
Proof. apply Z2Pos.id, pow10_pos; lia. Qed.

Lemma pow10_split (d k : Z) : 0 <= k <= d -> 10 ^ (d - k) * 10 ^ k = 10 ^ d.
Proof. intros H. rewrite <- Z.pow_add_r by lia. f_equal. lia. Qed.

(** A non-negative integer below [2^511] fits the format; every [uint256]
    is one. *)
Lemma checkValue_fits (n : Z) : 0 <= n < 2 ^ 511 -> checkValue n = Normal n.
Proof.
  intros H. unfold checkValue.
  assert (0 < 2 ^ 511) by (apply Z.pow_pos_nonneg; lia).
  destruct (Z.leb_spec (- 2 ^ 511) n); [| lia].
  destruct (Z.ltb_spec n (2 ^ 511)); [reflexivity | lia].
Qed.

Lemma uint256_fits (n : Z) : 0 <= n < 2 ^ 256 -> 0 <= n < 2 ^ 511.
Proof.
  intros H. assert (2 ^ 256 < 2 ^ 511) by (apply Z.pow_lt_mono_r; lia). lia.
Qed.

(** What [formatUnits] prints denotes the integer over the scaling factor. *)
Lemma formatUnits_value (n d : Z) :
  0 <= n < 2 ^ 511 -> 0 < d <= 80 ->
  exists text A,
    formatUnits n d = Normal text /\ decimal_value text = Some A /\
    (A * inject_Z (10 ^ d) == inject_Z n)%Q.
Proof.
  intros Hn Hd. unfold formatUnits, fromValue, getFormat.
  destruct (Z.leb_spec d 80) as [_ | ?]; [| lia].
  rewrite checkValue_fits by assumption.
  destruct (toString_shape n d) as (W & F & E & HW & HallW & HallF & H1 & Hle & Hval);
    [lia | assumption |].
  eexists. eexists. split; [reflexivity |].
  unfold decimal_value.
  rewrite list_ascii_of_string_of_list_ascii, E, match_decimal_point by assumption.
  destruct (Nat.eqb_spec (List.length W + List.length F) 0) as [? | _]; [lia |].
  split; [reflexivity |].
  unfold Qeq, Qmult, inject_Z, BigInt_of_digits. cbn [Qnum Qden].
  rewrite Pos.mul_1_r, pow10_den, Z.mul_1_r, <- Hval.
  rewrite <- (pow10_split d (Z.of_nat (List.length F))) by lia. ring.
Qed.

(** Printing a scaled integer and reading the text back gives the integer
    again. *)
Lemma unscale_scale_exact (n : Z) :
  0 <= n < 2 ^ 511 ->
  exists shown, formatUnits n 6 = Normal shown /\ parseUnits shown 6 = Normal n.
Proof.
  intros Hn. unfold formatUnits, fromValue, getFormat. cbn [Z.leb Z.compare].
  rewrite checkValue_fits by assumption.
  destruct (toString_shape n 6) as (W & F & E & HW & HallW & HallF & H1 & Hle & Hval);
    [lia | lia |].
  eexists. split; [reflexivity |].
  unfold parseUnits.
  rewrite (fromString_exact _ 6 false W F);
    try rewrite list_ascii_of_string_of_list_ascii, E;
    try lia; try now apply match_decimal_point.
  unfold BigInt_of_digits. rewrite Hval. now apply checkValue_fits.
Qed.

(** Claim C2.  For every positive decimal amount [A] written with at most
    six digits after the point, [parseUnits] with factor [10^6] yields the
    integer [A * 10^6] exactly, and [formatUnits] with the same factor
    prints a text that denotes [A] again.  The scaled integer is to fit the
    512 bits of the format, as every [uint256] does. *)
Theorem scale_unscale_exact (s : string) (A : Q) :
  decimal_value s = Some A ->
  (fraction_digits s <= 6)%nat ->
  (0 < A)%Q ->
  (A * inject_Z (10 ^ 6) < inject_Z (2 ^ 511))%Q ->
  exists n text A',
    parseUnits s 6 = Normal n /\
    (inject_Z n == A * inject_Z (10 ^ 6))%Q /\
    formatUnits n 6 = Normal text /\
    decimal_value text = Some A' /\ (A' == A)%Q.
Proof.
  unfold decimal_value, fraction_digits. intros HA Hfrac Hpos Hfit.
  destruct (match_decimal (list_ascii_of_string s))
    as [[[neg whole] frac] |] eqn:Hm; [| discriminate].
  destruct (Nat.eqb_spec (List.length whole + List.length frac) 0) as [? | Hne];
    [discriminate |].
  injection HA as <-.
  set (m := BigInt_of_digits neg (whole ++ frac)) in *.
  set (k := Z.of_nat (List.length frac)) in *.
  assert (Hk : 0 <= k <= 6) by (subst k; lia).
  unfold Qlt, Qmult, inject_Z in Hpos, Hfit. cbn [Qnum Qden] in Hpos, Hfit.
  rewrite Pos.mul_1_r in Hfit. unfold k in Hfit. rewrite pow10_den in Hfit.
  fold k in Hfit. rewrite Z.mul_1_r in Hpos, Hfit.
  pose proof (pow10_pos k ltac:(lia)) as Hk10.
  pose proof (pow10_pos (6 - k) ltac:(lia)) as Hk10'.
  pose proof (pow10_split 6 k Hk) as Hsplit.
  assert (Hparse : parseUnits s 6 = checkValue (m * 10 ^ (6 - k)))
    by (apply fromString_exact; [lia | assumption | assumption | lia]).
  assert (Hrange : 0 <= m * 10 ^ (6 - k) < 2 ^ 511).
  { split; [nia |].
    apply (Z.mul_lt_mono_pos_r (10 ^ k)); [assumption |].
    rewrite <- Z.mul_assoc, Hsplit. lia. }
  destruct (formatUnits_value (m * 10 ^ (6 - k)) 6 Hrange ltac:(lia))
    as (text & A' & Hfmt & Hval & HA').
  exists (m * 10 ^ (6 - k)), text, A'.
  assert (Hscaled :
    (inject_Z (m * 10 ^ (6 - k))
     == Qmake m (Z.to_pos (10 ^ k)) * inject_Z (10 ^ 6))%Q).
  { unfold Qeq, Qmult, inject_Z. cbn [Qnum Qden].
    rewrite Pos.mul_1_r. unfold k. rewrite pow10_den. fold k.
    rewrite <- Hsplit. ring. }
  repeat split.
  - rewrite Hparse. now apply checkValue_fits.
  - exact Hscaled.
  - exact Hfmt.
  - exact Hval.
  - apply (Qmult_inj_r _ _ (inject_Z (10 ^ 6))); [discriminate |].
    now rewrite HA', Hscaled.
Qed.

(** The amount 1.5 is scaled to 1500000 and printed as 1.5 again. *)
Lemma scale_unscale_exact_witness :
  exists n text A',
    parseUnits "1.5" 6 = Normal n /\
    (inject_Z n == (15 # 10) * inject_Z (10 ^ 6))%Q /\
    formatUnits n 6 = Normal text /\
    decimal_value text = Some A' /\ (A' == 15 # 10)%Q.
Proof.
  apply (scale_unscale_exact "1.5" (15 # 10)).
  - reflexivity.
  - vm_compute. lia.
  - reflexivity.
  - reflexivity.
Defined.

End RoundTrip.

(* ================================================================== *)
(** * The operations of the binding *)
(* ================================================================== *)

(** ** Connecting: [getFaucetContract] *)

Section Connect.

Variable w : World.

(** [getFaucetContract], interaction by interaction. *)
Lemma getFaucetContract_at_eq (t0 : list Event) (address : option string) :
  getFaucetContract_at address w t0 =
  if window_ethereum w then
    match respond w t0 NewBrowserProvider with
    | Throw e =>
        (Throw e, (t0 ++ [Called NewBrowserProvider]) ++ [contract_failure e])
    | Normal _ =>
        let t1 := (t0 ++ [Called NewBrowserProvider]) ++ [Called GetSigner] in
        match respond w (t0 ++ [Called NewBrowserProvider]) GetSigner with
        | Throw e => (Throw e, t1 ++ [contract_failure e])
        | Normal signer =>
            match address with
            | Some a =>
                if ToBoolean (JsString a)
                then (Normal {| target := a; abi := FAUCET_ABI;
                                runner := SignerRunner signer |}, t1)
                else (Throw ConfigurationError,
                      t1 ++ [contract_failure ConfigurationError])
            | None =>
                (Throw ConfigurationError,
                 t1 ++ [contract_failure ConfigurationError])
            end
        end
    end
  else (Throw ProviderUnavailable, t0).
Proof.
  unfold getFaucetContract_at, getFaucetContract_try, getFaucetContract_catch.
  unfold_monad. destruct (window_ethereum w); [| reflexivity].
  cbv beta iota delta [negb].
  destruct (respond w t0 NewBrowserProvider) as [[] | e]; [| reflexivity].
  destruct (respond w (t0 ++ [Called NewBrowserProvider]) GetSigner)
    as [signer | e]; [| reflexivity].
  destruct address as [a |]; [| reflexivity].
  destruct (ToBoolean (JsString a)); reflexivity.
Qed.

(** What [getFaucetContract] adds to the trace holds no warning. *)
Lemma getFaucetContract_trace (t0 t1 : list Event) r :
  getFaucetContract w t0 = (r, t1) ->
  exists ext, t1 = t0 ++ ext /\ ~ In warning ext.
Proof.
  unfold getFaucetContract. rewrite getFaucetContract_at_eq.
  destruct (window_ethereum w).
  - destruct (respond w t0 NewBrowserProvider) as [[] | e].
    + cbn zeta. destruct (respond w _ GetSigner) as [signer | e].
      * cbn [ToBoolean FAUCET_ADDRESS String.eqb Ascii.eqb negb].
        cbv beta iota. intros [= _ <-]. eexists. split.
        -- rewrite <- !app_assoc. cbn [app]. reflexivity.
        -- cbn [In]. intuition discriminate.
      * intros [= _ <-]. eexists. split.
        -- rewrite <- !app_assoc. cbn [app]. reflexivity.
        -- cbn [In]. intuition discriminate.
    + intros [= _ <-]. eexists. split.
      * rewrite <- !app_assoc. cbn [app]. reflexivity.
      * cbn [In]. intuition discriminate.
  - intros [= _ <-]. exists []. split; [now rewrite app_nil_r | intros []].
Qed.

(** Claim C7, as the code has it.  [getFaucetContract] fails with
    ProviderUnavailable when no wallet provider is present: nothing is
    called and nothing is logged.  With a provider present, the provider
    is constructed and the signer requested; an error of either is logged
    by the catch clause and thrown on unchanged, and nothing else happens.
    Once the signer is obtained, the operation fails with
    ConfigurationError, logged in the same way, when the contract address
    is unset, and otherwise returns the contract handle for that address,
    bound to the signer of the active account, without logging. *)
Theorem getFaucetContract_at_outcome (address : option string) :
  run (getFaucetContract_at address) w =
  if negb (window_ethereum w) then (Throw ProviderUnavailable, [])
  else
    match respond w [] NewBrowserProvider with
    | Throw e =>
        (Throw e,
         [Called NewBrowserProvider;
          Console Error [text "Failed to get faucet contract:"; LogError e]])
    | Normal _ =>
        match respond w [Called NewBrowserProvider] GetSigner with
        | Throw e =>
            (Throw e,
             [Called NewBrowserProvider; Called GetSigner;
              Console Error
                [text "Failed to get faucet contract:"; LogError e]])
        | Normal signer =>
            match address with
            | Some a =>
                if ToBoolean (JsString a)
                then (Normal {| target := a; abi := FAUCET_ABI;
                                runner := SignerRunner signer |},
                      [Called NewBrowserProvider; Called GetSigner])
                else (Throw ConfigurationError,
                      [Called NewBrowserProvider; Called GetSigner;
                       Console Error
                         [text "Failed to get faucet contract:";
                          LogError ConfigurationError]])
            | None =>
                (Throw ConfigurationError,
                 [Called NewBrowserProvider; Called GetSigner;
                  Console Error
                    [text "Failed to get faucet contract:";
                     LogError ConfigurationError]])
            end
        end
    end.
Proof.
  unfold run. rewrite getFaucetContract_at_eq. cbn [app].
  destruct (window_ethereum w); [| reflexivity]. cbn [negb].
  destruct (respond w [] NewBrowserProvider) as [[] | e]; [| reflexivity].
  cbn zeta.
  destruct (respond w [Called NewBrowserProvider] GetSigner) as [signer | e];
    [| reflexivity].
  destruct address as [a |]; [| reflexivity].
  destruct (ToBoolean (JsString a)); reflexivity.
Qed.

End Connect.

(** Claim C7, as stated, fails when the user declines the connection: the
    provider is present, yet with the address unset the failure is not
    ConfigurationError, and with the address set no handle is returned. *)
Lemma getFaucetContract_declined :
  window_ethereum declined = true /\
  fst (run (getFaucetContract_at None) declined) = Throw user_rejected /\
  fst (run getFaucetContract declined) = Throw user_rejected /\
  user_rejected <> ConfigurationError.
Proof. vm_compute. repeat split; discriminate. Qed.

(** ** Requesting funds: [requestTokens] *)

Section Request.

Lemma falsy_ToBoolean (v : JsValue) : falsy v <-> ToBoolean v = false.
Proof.
  split.
  - intros []; reflexivity.
  - destruct v as [| | [] | [] | s | n]; cbn; intros H;
      try discriminate H; try constructor.
    + destruct s; [constructor | discriminate H].
    + apply negb_false_iff, Z.eqb_eq in H. subst. constructor.
Qed.

(** A negative number is not among them. *)
Lemma negative_truthy (x : Number) :
  SFltb x (S754_zero false) = true -> ToBoolean (JsNumber x) = true.
Proof. destruct x as [| | | s m e]; try discriminate; reflexivity. Qed.

Variable w : World.

(** Once the guard is passed, something happens before [requestTokens]
    completes. *)
Lemma requestTokens_trace (amount : JsValue) :
  ToBoolean amount = true -> snd (run (requestTokens amount) w) <> [].
Proof.
  intros H. unfold requestTokens, run. rewrite H. cbn [negb].
  unfold requestTokens_try, requestTokens_catch, getFaucetContract.
  unfold_monad. rewrite getFaucetContract_at_eq.
  destruct (window_ethereum w); [| discriminate].
  destruct (respond w [] NewBrowserProvider) as [[] | e]; [| discriminate].
  cbn zeta. destruct (respond w _ GetSigner); [| discriminate].
  cbn [ToBoolean FAUCET_ADDRESS String.eqb Ascii.eqb negb]. cbv beta iota.
  destruct (Ethers.parseUnits (ToString amount) 6); [| discriminate].
  next_response; [| discriminate].
  next_response; discriminate.
Qed.

(** With a wallet present, the first thing after the guard is the
    construction of the provider. *)
Lemma requestTokens_reaches_provider (amount : JsValue) :
  ToBoolean amount = true -> window_ethereum w = true ->
  exists trace,
    snd (run (requestTokens amount) w) = Called NewBrowserProvider :: trace.
Proof.
  intros H Hw. unfold requestTokens, run. rewrite H. cbn [negb].
  unfold requestTokens_try, requestTokens_catch, getFaucetContract.
  unfold_monad. rewrite getFaucetContract_at_eq, Hw.
  destruct (respond w [] NewBrowserProvider) as [[] | e];
    [| eexists; reflexivity].
  cbn zeta. destruct (respond w _ GetSigner); [| eexists; reflexivity].
  cbn [ToBoolean FAUCET_ADDRESS String.eqb Ascii.eqb negb]. cbv beta iota.
  destruct (Ethers.parseUnits (ToString amount) 6); [| eexists; reflexivity].
  next_response; [| eexists; reflexivity].
  next_response; eexists; reflexivity.
Qed.

(** Claim C1, as the code has it.  [requestTokens] fails with InvalidAmount
    before anything else happens, in particular before any provider or
    network call, exactly when the amount is falsy: missing ([undefined]),
    [null], [false], zero, [NaN], the empty string or [0n].  Every other
    amount, a negative one included, passes the guard: with a wallet
    provider present, the first thing that happens is the construction of
    the provider; with none, the operation fails with ProviderUnavailable,
    which the catch clause logs, and nothing is called. *)
Theorem requestTokens_invalid_amount (amount : JsValue) :
  (run (requestTokens amount) w = (Throw InvalidAmount, []) <-> falsy amount) /\
  (~ falsy amount ->
   if window_ethereum w
   then exists trace,
          snd (run (requestTokens amount) w)
          = Called NewBrowserProvider :: trace
   else run (requestTokens amount) w
        = (Throw ProviderUnavailable,
           [Console Error
              [text "Faucet request failed:"; LogError ProviderUnavailable]])).
Proof.
  rewrite falsy_ToBoolean. split; [split |].
  - intros H. destruct (ToBoolean amount) eqn:E; [| reflexivity].
    pose proof (requestTokens_trace amount E) as Ht.
    rewrite H in Ht. now contradiction Ht.
  - intros H. unfold requestTokens, run. now rewrite H.
  - intros H. apply not_false_is_true in H.
    destruct (window_ethereum w) eqn:Hw.
    + now apply requestTokens_reaches_provider.
    + unfold requestTokens, run. rewrite H. cbn [negb].
      unfold requestTokens_try, requestTokens_catch, getFaucetContract.
      unfold_monad. rewrite getFaucetContract_at_eq, Hw. reflexivity.
Qed.

End Request.

(** [requestFunds(0)] and [requestFunds(null)], with a connected wallet,
    and the amount -5, which passes the guard and reaches the provider. *)
Lemma requestTokens_invalid_amount_witness :
  run (requestTokens (JsNumber (Number_of_BigInt 0))) (connected 0 0)
  = (Throw InvalidAmount, []) /\
  run (requestTokens JsNull) (connected 0 0) = (Throw InvalidAmount, []) /\
  exists trace,
    snd (run (requestTokens (JsNumber minus_five)) (connected 0 0))
    = Called NewBrowserProvider :: trace.
Proof.
  split; [| split].
  - apply (proj2 (proj1 (requestTokens_invalid_amount (connected 0 0) _))).
    apply (falsy_zero false).
  - apply (proj2 (proj1 (requestTokens_invalid_amount (connected 0 0) _))).
    apply falsy_null.
  - apply (proj2 (requestTokens_invalid_amount (connected 0 0)
                    (JsNumber minus_five))).
    intros H. inversion H.
Defined.

(** Claim C1, as stated, fails on the amount -5: the signer is requested
    from the provider, the amount is scaled to -5000000, and the failure is
    that of the contract call, not InvalidAmount. *)
Lemma requestTokens_negative_amount :
  SFltb minus_five (S754_zero false) = true /\
  fst (run (requestTokens (JsNumber minus_five)) (connected 0 0))
  = Throw (mkError "value out-of-bounds") /\
  In (Called GetSigner)
     (snd (run (requestTokens (JsNumber minus_five)) (connected 0 0))) /\
  run (requestTokens (JsNumber minus_five)) (connected 0 0)
  <> (Throw InvalidAmount, []).
Proof.
  split; [reflexivity |]. split; [vm_compute; reflexivity |].
  split; [vm_compute; tauto | vm_compute; discriminate].
Qed.

(** A number as amount is printed first: 1.5 is scaled to 1500000, while
    a number from [1e21] on is printed with an exponent, which [parseUnits]
    does not read. *)
Lemma requestTokens_number_amounts :
  Ethers.parseUnits (ToString (JsNumber (round_ratio 3 2))) 6 = Normal 1500000 /\
  ToString (JsNumber (Number_of_BigInt (10 ^ 21))) = "1e+21" /\
  Ethers.parseUnits "1e+21" 6 = Throw (mkError "invalid FixedNumber string value").
Proof. vm_compute. repeat split. Qed.

(** ** The time until the next auto-mint: [getTimeUntilNextAutoMint] *)

Section AutoMintTime.

Variable w : World.
Variable t0 : list Event.

(** [getTimeUntilNextAutoMint] in terms of the read. *)
Lemma getTimeUntilNextAutoMint_eq :
  getTimeUntilNextAutoMint w t0 =
  match read_time w t0 with
  | (Normal t, t1) =>
      (Normal (time_result t),
       (t1 ++ [Console Log [text "Time until next auto-mint (seconds):";
                            text (BigInt_toString t)]])
          ++ [Console Log [text "Formatted time:";
                           text (formatted (time_result t))]])
  | (Throw e, t1) => (Normal time_sentinel, t1 ++ [time_failure e])
  end.
Proof.
  unfold getTimeUntilNextAutoMint, getTimeUntilNextAutoMint_try,
    getTimeUntilNextAutoMint_catch, read_time.
  unfold_monad. destruct (getFaucetContract w t0) as [[c | e] t1]; [| reflexivity].
  next_response; reflexivity.
Qed.

(** The [try] block throws exactly when the read does. *)
Lemma getTimeUntilNextAutoMint_try_throws (e : JsError) (t1 : list Event) :
  getTimeUntilNextAutoMint_try w t0 = (Throw e, t1) <->
  read_time w t0 = (Throw e, t1).
Proof.
  unfold getTimeUntilNextAutoMint_try, read_time. unfold_monad.
  destruct (getFaucetContract w t0) as [[c | e'] t'];
    [| split; intros [= <- <-]; reflexivity].
  next_response; [| split; intros [= <- <-]; reflexivity].
  split; discriminate.
Qed.

(** In no world does [getTimeUntilNextAutoMint] throw. *)
Lemma getTimeUntilNextAutoMint_total :
  exists result trace, getTimeUntilNextAutoMint w t0 = (Normal result, trace).
Proof.
  rewrite getTimeUntilNextAutoMint_eq.
  destruct (read_time w t0) as [[t | e] t1]; eexists; eexists; reflexivity.
Qed.

(** Claim C3.  On a successful read of the raw duration [t],
    [getTimeUntilNextAutoMint] returns an object whose [isAvailableNow] is
    true if and only if [t] is 0, and whose [formatted] breakdown for 90061
    seconds is "1 days, 1 hours, 1 minutes". *)
Theorem getTimeUntilNextAutoMint_success (t1 : list Event) (t : Z) :
  read_time w t0 = (Normal t, t1) ->
  exists result trace,
    getTimeUntilNextAutoMint w t0 = (Normal result, trace) /\
    timeInSeconds result = BigInt_toString t /\
    (isAvailableNow result = true <-> t = 0) /\
    (t = 90061 -> formatted result = "1 days, 1 hours, 1 minutes").
Proof.
  intros H. rewrite getTimeUntilNextAutoMint_eq, H.
  eexists. eexists. split; [reflexivity |]. split; [reflexivity |]. split.
  - apply BigInt_toString_zero.
  - intros ->. vm_compute. reflexivity.
Qed.

(** Claim C6.  On any error, [getTimeUntilNextAutoMint] does not throw: it
    logs the error and returns the sentinel, whose duration is "0", whose
    text is "Error", and whose [isAvailableNow] is false although the
    duration is zero. *)
Theorem getTimeUntilNextAutoMint_failure (t1 : list Event) (e : JsError) :
  getTimeUntilNextAutoMint_try w t0 = (Throw e, t1) ->
  getTimeUntilNextAutoMint w t0
  = (Normal {| timeInSeconds := "0"; formatted := "Error";
               isAvailableNow := false |},
     t1 ++ [time_failure e]).
Proof.
  intros H. apply getTimeUntilNextAutoMint_try_throws in H.
  now rewrite getTimeUntilNextAutoMint_eq, H.
Qed.

End AutoMintTime.

(** A connected wallet, and a faucet that answers 90061 seconds. *)
Lemma getTimeUntilNextAutoMint_success_witness :
  exists result trace,
    getTimeUntilNextAutoMint (connected 0 90061) [] = (Normal result, trace) /\
    timeInSeconds result = BigInt_toString 90061 /\
    (isAvailableNow result = true <-> 90061 = 0) /\
    (90061 = 90061 -> formatted result = "1 days, 1 hours, 1 minutes").
Proof.
  apply (getTimeUntilNextAutoMint_success (connected 0 90061) []
           (snd (read_time (connected 0 90061) [])) 90061).
  vm_compute. reflexivity.
Defined.

(** The user declines the connection. *)
Lemma getTimeUntilNextAutoMint_failure_witness :
  getTimeUntilNextAutoMint declined []
  = (Normal {| timeInSeconds := "0"; formatted := "Error";
               isAvailableNow := false |},
     snd (getTimeUntilNextAutoMint_try declined [])
       ++ [time_failure user_rejected]).
Proof.
  apply (getTimeUntilNextAutoMint_failure declined []).
  vm_compute. reflexivity.
Defined.

(** ** The remaining allowance: [getRemainingAllowance] *)

Section Allowance.

Variable w : World.
Variable t0 : list Event.

(** The [try] block throws exactly the errors of these four sources. *)
Lemma getRemainingAllowance_try_throws (e : JsError) :
  allowance_error w t0 e <->
  exists t1, getRemainingAllowance_try w t0 = (Throw e, t1).
Proof.
  unfold getRemainingAllowance_try, allowance_query. unfold_monad. split.
  - intros [t1 H | c t1 H R | c t1 accounts H R R' | c t1 accounts v H R R' F];
      unfold allowance_query in *;
      rewrite H; cbv beta iota; try rewrite R; cbv beta iota;
      try rewrite R'; cbv beta iota; try rewrite F; eexists; reflexivity.
  - intros [t2 H]. destruct (getFaucetContract w t0) as [[c | e'] t1] eqn:Hc.
    + cbv beta iota in H.
      destruct (respond w t1 EthRequestAccounts) as [accounts | e'] eqn:R;
        cbv beta iota in H.
      * destruct (respond w _ (CallGetRemainingAllowance c (first_account accounts)))
          as [v | e'] eqn:R'; cbv beta iota in H.
        -- destruct (Ethers.formatUnits v 6) as [shown | e'] eqn:F;
             cbv beta iota in H; [discriminate H |].
           injection H as -> _.
           now apply (error_of_decoding w t0 e c t1 accounts v).
        -- injection H as -> _.
           now apply (error_of_contract w t0 e c t1 accounts).
      * injection H as -> _. now apply (error_of_accounts w t0 e c t1).
    + injection H as -> _. now apply (error_of_provider w t0 e t1).
Qed.

(** Claim C5.  [getRemainingAllowance] propagates every failure unchanged:
    an error raised by the provider, by the account request, by the
    contract call or by the decoding is logged and thrown again as it is;
    no fallback value is returned. *)
Theorem getRemainingAllowance_propagates (e : JsError) :
  allowance_error w t0 e ->
  exists t1,
    getRemainingAllowance w t0 = (Throw e, t1 ++ [allowance_failure e]).
Proof.
  intros H. apply getRemainingAllowance_try_throws in H as [t1 H].
  exists t1. unfold getRemainingAllowance, getRemainingAllowance_catch.
  unfold_monad. now rewrite H.
Qed.

(** Claim C8.  [getRemainingAllowance] queries the contract for the first
    account the provider returned, and returns the [uint256] the contract
    answers printed by [formatUnits] with six decimals: a text that denotes
    that integer over [10^6]. *)
Theorem getRemainingAllowance_first_account
    (t1 : list Event) (c : Contract)
    (account : string) (others : list string) (remainingWei : Z) :
  getFaucetContract w t0 = (Normal c, t1) ->
  respond w t1 EthRequestAccounts = Normal (account :: others) ->
  respond w (allowance_query t1 (account :: others))
    (CallGetRemainingAllowance c (JsString account)) = Normal remainingWei ->
  0 <= remainingWei < 2 ^ 256 ->
  exists shown A,
    getRemainingAllowance w t0
    = (Normal shown,
       (allowance_query t1 (account :: others)
          ++ [Called (CallGetRemainingAllowance c (JsString account))])
          ++ [Console Log [text "Remaining allowance:"; text shown]]) /\
    Ethers.formatUnits remainingWei 6 = Normal shown /\
    decimal_value shown = Some A /\
    (A * inject_Z (10 ^ 6) == inject_Z remainingWei)%Q.
Proof.
  intros Hc Ra Rq Hrange.
  destruct (formatUnits_value remainingWei 6 (uint256_fits _ Hrange) ltac:(lia))
    as (shown & A & Hf & Hv & HA).
  exists shown, A. repeat split; try assumption.
  unfold getRemainingAllowance, getRemainingAllowance_try. unfold_monad.
  rewrite Hc. cbv beta iota. rewrite Ra. cbv beta iota.
  change (first_account (account :: others)) with (JsString account).
  unfold allowance_query in Rq. cbn [first_account] in Rq.
  rewrite Rq. cbv beta iota. rewrite Hf. reflexivity.
Qed.

End Allowance.

(** The user declines the connection: the error of the provider. *)
Lemma getRemainingAllowance_propagates_witness :
  exists t1,
    getRemainingAllowance declined []
    = (Throw user_rejected, t1 ++ [allowance_failure user_rejected]).
Proof.
  apply (getRemainingAllowance_propagates declined [] user_rejected).
  apply (error_of_provider declined [] user_rejected
           (snd (getFaucetContract declined []))).
  vm_compute. reflexivity.
Defined.

(** The connected wallet: the allowance of the first account, 2500000
    units, is shown as 2.5. *)
Lemma getRemainingAllowance_first_account_witness :
  exists shown A,
    getRemainingAllowance (connected 0 0) []
    = (Normal shown,
       (allowance_query (snd (getFaucetContract (connected 0 0) []))
          ["0xA11ce"; "0xB0b"]
          ++ [Called (CallGetRemainingAllowance
                        connected_contract (JsString "0xA11ce"))])
          ++ [Console Log [text "Remaining allowance:"; text shown]]) /\
    Ethers.formatUnits 2500000 6 = Normal shown /\
    decimal_value shown = Some A /\
    (A * inject_Z (10 ^ 6) == inject_Z 2500000)%Q.
Proof.
  apply (getRemainingAllowance_first_account (connected 0 0) []
           (snd (getFaucetContract (connected 0 0) []))
           connected_contract "0xA11ce" ["0xB0b"] 2500000).
  - vm_compute. reflexivity.
  - reflexivity.
  - reflexivity.
  - lia.
Defined.

(** ** The faucet balance: [getFaucetBalance] *)

Section Balance.

Variable w : World.

(** The [try] block up to the comparison, then the rest. *)
Lemma getFaucetBalance_try_eq (t0 : list Event) :
  getFaucetBalance_try w t0 =
  match getFaucetContract w (t0 ++ [balance_started]) with
  | (Throw e, t1) => (Throw e, t1)
  | (Normal c, t1) =>
      match respond w t1 (CallUsdcToken c) with
      | Throw e => (Throw e, t1 ++ [Called (CallUsdcToken c)])
      | Normal tokenAddress =>
          balance_rest c tokenAddress w
            (mismatch_reported (token_checked t1 c tokenAddress) tokenAddress)
      end
  end.
Proof.
  unfold getFaucetBalance_try, balance_rest, mismatch_reported, token_checked,
    balance_started, mismatch.
  unfold_monad.
  destruct (getFaucetContract w _) as [[c | e] t1]; [| reflexivity].
  next_response; [| reflexivity].
  destruct (negb _); reflexivity.
Qed.

(** The catch clause turns every outcome of the block into a value. *)
Lemma getFaucetBalance_eq (t0 : list Event) :
  getFaucetBalance w t0 =
  match getFaucetBalance_try w t0 with
  | (Normal balance, t1) => (Normal balance, t1)
  | (Throw e, t1) => (Normal "0", t1 ++ balance_failure e)
  end.
Proof.
  unfold getFaucetBalance, getFaucetBalance_catch, balance_failure.
  unfold_monad. destruct (getFaucetBalance_try w t0) as [[s | e] t1];
    [reflexivity |].
  now rewrite <- app_assoc.
Qed.

(** Claim C4.  [getFaucetBalance] never throws: in every world it returns
    a value, and whenever its [try] block fails, with whatever error of the
    provider, of a contract or of the decoding, that value is the sentinel
    "0". *)
Theorem getFaucetBalance_never_throws (t0 : list Event) :
  exists balance trace,
    getFaucetBalance w t0 = (Normal balance, trace) /\
    match getFaucetBalance_try w t0 with
    | (Throw e, t1) => balance = "0" /\ trace = t1 ++ balance_failure e
    | (Normal shown, t1) => balance = shown /\ trace = t1
    end.
Proof.
  rewrite getFaucetBalance_eq.
  destruct (getFaucetBalance_try w t0) as [[s | e] t1];
    eexists; eexists; repeat split.
Qed.

(** The rest of the block always queries the faucet balance first, and
    nothing it adds to the trace is the warning. *)
Lemma balance_rest_trace c tokenAddress (t : list Event) :
  exists r ext,
    balance_rest c tokenAddress w t
    = (r, t ++ connected_logged :: Called (CallGetFaucetBalance c) :: ext) /\
    ~ In warning ext.
Proof.
  unfold balance_rest. unfold_monad.
  next_response;
    [| eexists; eexists; split;
       [rewrite <- !app_assoc; cbn [app]; reflexivity | intros []]].
  destruct (Ethers.formatUnits _ 6);
    [| eexists; eexists; split;
       [rewrite <- !app_assoc; cbn [app]; reflexivity
       | cbn [In]; intuition discriminate]].
  repeat (next_response;
    [| eexists; eexists; split;
       [rewrite <- !app_assoc; cbn [app]; reflexivity
       | cbn [In]; intuition discriminate]]).
  destruct (Ethers.formatUnits_big _ _);
    eexists; eexists; (split;
       [rewrite <- !app_assoc; cbn [app]; reflexivity
       | cbn [In]; intuition discriminate]).
Qed.

(** When the rest of the block completes, it returns the faucet's own
    balance, printed with six decimals; the token contract was asked for
    its decimals, and the direct balance was printed with them. *)
Lemma balance_rest_success c tokenAddress (t t2 : list Event) shown :
  balance_rest c tokenAddress w t = (Normal shown, t2) ->
  (exists balanceWei,
     respond w (t ++ [connected_logged]) (CallGetFaucetBalance c)
     = Normal balanceWei /\
     Ethers.formatUnits balanceWei 6 = Normal shown) /\
  (exists tA tB decimals directBalance direct,
     respond w tA (CallDecimals (usdcContract tokenAddress)) = Normal decimals /\
     respond w tB (CallBalanceOf (usdcContract tokenAddress) FAUCET_ADDRESS)
     = Normal directBalance /\
     Ethers.formatUnits_big directBalance decimals = Normal direct /\
     In (direct_logged direct) t2).
Proof.
  unfold balance_rest, connected_logged. unfold_monad.
  destruct (respond w _ (CallGetFaucetBalance c)) as [bal | e] eqn:Rb;
    [| discriminate].
  cbv beta iota.
  destruct (Ethers.formatUnits bal 6) as [s | e] eqn:F; [| discriminate].
  cbv beta iota. next_response; [| discriminate].
  destruct (respond w _ (CallDecimals _)) as [d | e] eqn:Rd; [| discriminate].
  cbv beta iota.
  destruct (respond w _ (CallBalanceOf _ _)) as [b | e] eqn:Rdb; [| discriminate].
  cbv beta iota.
  destruct (Ethers.formatUnits_big b d) as [direct | e] eqn:Fd; [| discriminate].
  intros [= <- <-]. split.
  - exists bal. split; [reflexivity | assumption].
  - eexists. eexists. exists d, b, direct. repeat split; try eassumption.
    apply in_or_app. right. left. reflexivity.
Qed.

Lemma token_checked_no_warning (t1 : list Event) c tokenAddress :
  ~ In warning t1 -> ~ In warning (token_checked t1 c tokenAddress).
Proof.
  unfold token_checked. rewrite !in_app_iff. cbn [In].
  intuition discriminate.
Qed.

(** Lower-casing identifies exactly the texts that differ at most in the
    case of their letters. *)
Lemma N_of_lower_char (c : ascii) :
  N_of_ascii (lower_char c)
  = if upper_case c then (N_of_ascii c + 32)%N else N_of_ascii c.
Proof.
  unfold lower_char, upper_case.
  destruct ((65 <=? N_of_ascii c)%N && (N_of_ascii c <=? 90)%N) eqn:E;
    [| reflexivity].
  apply andb_true_iff in E as [_ E]. apply N.leb_le in E.
  apply N_ascii_embedding. lia.
Qed.

Lemma lower_char_eq (a b : ascii) :
  lower_char a = lower_char b <-> same_letter a b = true.
Proof.
  assert (Hinj : forall x y : ascii, N_of_ascii x = N_of_ascii y <-> x = y).
  { intros x y. split; [| now intros ->].
    intros H. rewrite <- (ascii_N_embedding x), <- (ascii_N_embedding y).
    now rewrite H. }
  rewrite <- Hinj, !N_of_lower_char. unfold same_letter.
  rewrite !orb_true_iff, !andb_true_iff, !N.eqb_eq.
  rewrite <- (reflect_iff _ _ (Ascii.eqb_spec a b)), <- Hinj.
  unfold upper_case.
  destruct (65 <=? N_of_ascii a)%N eqn:A1, (N_of_ascii a <=? 90)%N eqn:A2,
    (65 <=? N_of_ascii b)%N eqn:B1, (N_of_ascii b <=? 90)%N eqn:B2;
    cbn [andb];
    repeat match goal with
           | H : (_ <=? _)%N = true |- _ => apply N.leb_le in H
           | H : (_ <=? _)%N = false |- _ => apply N.leb_gt in H
           end;
    (split;
     [ intros H;
       first [ left; left; lia
             | left; right; split; [reflexivity | lia]
             | right; split; [reflexivity | lia] ]
     | intros [[H | [H' H]] | [H' H]]; try discriminate H'; lia ]).
Qed.

Lemma toLowerCase_eq (s1 s2 : string) :
  toLowerCase s1 = toLowerCase s2 <-> same_ignoring_case s1 s2 = true.
Proof.
  revert s2. induction s1 as [| a r1 IH]; intros [| b r2]; cbn.
  - intuition.
  - split; discriminate.
  - split; discriminate.
  - rewrite andb_true_iff, <- IH, <- lower_char_eq.
    split; [intros [= -> ->]; now split | intros [-> ->]; reflexivity].
Qed.

Lemma mismatch_ignoring_case (tokenAddress : string) :
  mismatch tokenAddress = negb (same_ignoring_case tokenAddress EXPECTED_USDC).
Proof.
  unfold mismatch. f_equal.
  destruct (same_ignoring_case tokenAddress EXPECTED_USDC) eqn:E.
  - apply String.eqb_eq. now apply toLowerCase_eq.
  - apply String.eqb_neq. intros H. apply toLowerCase_eq in H. congruence.
Qed.

Lemma mismatch_reported_compared (t1 : list Event) c (tokenAddress : string) :
  mismatch_reported (token_checked t1 c tokenAddress) tokenAddress
  = addresses_compared t1 c tokenAddress.
Proof.
  unfold mismatch_reported, addresses_compared.
  rewrite mismatch_ignoring_case.
  now destruct (same_ignoring_case tokenAddress EXPECTED_USDC).
Qed.

Lemma addresses_compared_warning (t1 : list Event) c (tokenAddress : string) :
  ~ In warning t1 ->
  In warning (addresses_compared t1 c tokenAddress) <->
  same_ignoring_case tokenAddress EXPECTED_USDC = false.
Proof.
  intros H. pose proof (token_checked_no_warning t1 c tokenAddress H) as Htc.
  unfold addresses_compared.
  destruct (same_ignoring_case tokenAddress EXPECTED_USDC).
  - intuition discriminate.
  - rewrite in_app_iff. cbn [In]. intuition.
Qed.

End Balance.

Section TokenMismatch.

Variable w : World.
Variable c : Contract.
Variable t1 : list Event.
Variable tokenAddress : string.

(** The faucet contract is obtained and names its token. *)
Hypothesis connection :
  getFaucetContract w [balance_started] = (Normal c, t1).
Hypothesis token :
  respond w t1 (CallUsdcToken c) = Normal tokenAddress.

(** Claim C9.  When the faucet's token address is read, [getFaucetBalance]
    logs the warning if and only if that address and the expected one
    differ in more than the case of their letters.  In either case the
    query goes on from there in the same way: the faucet is asked for its
    balance next, and a value is returned.  When the faucet answers its
    balance and the direct check goes through, the value returned is that
    balance printed with six decimals, whether the warning was logged or
    not, and the direct balance is logged last, printed with the decimals
    the token contract has just answered. *)
Theorem getFaucetBalance_token_mismatch :
  (exists balance rest,
     run getFaucetBalance w
     = (Normal balance,
        addresses_compared t1 c tokenAddress
          ++ connected_logged :: Called (CallGetFaucetBalance c) :: rest) /\
     ~ In warning rest /\
     (In warning (addresses_compared t1 c tokenAddress) <->
      same_ignoring_case tokenAddress EXPECTED_USDC = false)) /\
  (forall (balanceWei : Z) (shown : string)
          (decimals directBalance : Z) (direct : string),
     let t2 :=
       balance_shown (addresses_compared t1 c tokenAddress) c balanceWei shown in
     respond w (addresses_compared t1 c tokenAddress ++ [connected_logged])
       (CallGetFaucetBalance c) = Normal balanceWei ->
     Ethers.formatUnits balanceWei 6 = Normal shown ->
     respond w t2 NewBrowserProvider = Normal tt ->
     respond w (t2 ++ [Called NewBrowserProvider])
       (CallDecimals (usdcContract tokenAddress)) = Normal decimals ->
     respond w (decimals_shown t2 tokenAddress decimals)
       (CallBalanceOf (usdcContract tokenAddress) FAUCET_ADDRESS)
     = Normal directBalance ->
     Ethers.formatUnits_big directBalance decimals = Normal direct ->
     run getFaucetBalance w
     = (Normal shown,
        (decimals_shown t2 tokenAddress decimals
           ++ [Called (CallBalanceOf (usdcContract tokenAddress) FAUCET_ADDRESS)])
          ++ [direct_logged direct])).
Proof.
  destruct (getFaucetContract_trace w _ _ _ connection) as (ext1 & Et1 & Hext1).
  assert (Ht1 : ~ In warning t1).
  { rewrite Et1, in_app_iff. cbn [In]. intuition discriminate. }
  unfold run. rewrite getFaucetBalance_eq, getFaucetBalance_try_eq.
  cbn [app]. rewrite connection, token, mismatch_reported_compared.
  split.
  - destruct (balance_rest_trace w c tokenAddress
                (addresses_compared t1 c tokenAddress))
      as (r & ext & E & Hext).
    rewrite E.
    destruct r as [shown | e]; eexists; eexists.
    + split; [reflexivity |].
      split; [assumption | now apply addresses_compared_warning].
    + split; [rewrite <- app_assoc; cbn [app]; reflexivity |].
      split; [| now apply addresses_compared_warning].
      rewrite in_app_iff. cbn [In balance_failure]. intuition discriminate.
  - intros balanceWei shown decimals directBalance direct. cbv zeta.
    unfold balance_shown, decimals_shown, connected_logged.
    intros Rb F Rp Rd Rdb Fd.
    unfold balance_rest, direct_logged. unfold_monad.
    rewrite Rb. cbv beta iota. rewrite F. cbv beta iota.
    rewrite Rp. cbv beta iota. rewrite Rd. cbv beta iota.
    rewrite Rdb. cbv beta iota. rewrite Fd. reflexivity.
Qed.

End TokenMismatch.

(** A faucet linked to another token, and one linked to the expected token
    spelled in lower case.  With the other token the warning is logged and
    the balance 5.0 is returned all the same; with the other spelling the
    same balance is returned and no warning is logged. *)
Lemma getFaucetBalance_token_mismatch_witness :
  let w1 := connected_to wrong_token 5000000 0 in
  let w2 := connected_to usdc_lower 5000000 0 in
  let t1 := [balance_started; Called NewBrowserProvider; Called GetSigner] in
  let shown t :=
    balance_shown (addresses_compared t1 connected_contract t)
      connected_contract 5000000 "5.0" in
  (same_ignoring_case wrong_token EXPECTED_USDC = false /\
   addresses_compared t1 connected_contract wrong_token
   = token_checked t1 connected_contract wrong_token ++ [warning] /\
   run getFaucetBalance w1
   = (Normal "5.0",
      (decimals_shown (shown wrong_token) wrong_token 6
         ++ [Called (CallBalanceOf (usdcContract wrong_token) FAUCET_ADDRESS)])
        ++ [direct_logged "5.0"])) /\
  (usdc_lower <> EXPECTED_USDC /\
   addresses_compared t1 connected_contract usdc_lower
   = token_checked t1 connected_contract usdc_lower /\
   run getFaucetBalance w2
   = (Normal "5.0",
      (decimals_shown (shown usdc_lower) usdc_lower 6
         ++ [Called (CallBalanceOf (usdcContract usdc_lower) FAUCET_ADDRESS)])
        ++ [direct_logged "5.0"])).
Proof.
  cbv zeta. split; (split; [| split]).
  - reflexivity.
  - reflexivity.
  - apply (proj2 (getFaucetBalance_token_mismatch
                    (connected_to wrong_token 5000000 0) connected_contract
                    [balance_started; Called NewBrowserProvider;
                     Called GetSigner]
                    wrong_token eq_refl eq_refl)
             5000000 "5.0" 6 5000000 "5.0");
      vm_compute; reflexivity.
  - discriminate.
  - reflexivity.
  - apply (proj2 (getFaucetBalance_token_mismatch
                    (connected_to usdc_lower 5000000 0) connected_contract
                    [balance_started; Called NewBrowserProvider;
                     Called GetSigner]
                    usdc_lower eq_refl eq_refl)
             5000000 "5.0" 6 5000000 "5.0");
      vm_compute; reflexivity.
Defined.

(** The comparison ignores the case of the letters: the address differs
    from the expected one as a text, and no warning is logged. *)
Lemma getFaucetBalance_case_insensitive :
  usdc_lower <> EXPECTED_USDC /\
  ~ In warning (snd (run getFaucetBalance (connected 5000000 0))).
Proof. split; [discriminate | vm_compute; intuition discriminate]. Qed.

(** A faucet linked to another token: the warning is logged and the
    balance is returned all the same. *)
Lemma getFaucetBalance_wrong_token :
  let w := connected_to wrong_token 5000000 0 in
  fst (run getFaucetBalance w) = Normal "5.0" /\
  In warning (snd (run getFaucetBalance w)).
Proof. vm_compute. intuition. Qed.

(** Without a wallet, and with a user who declines, the balance is "0". *)
Lemma getFaucetBalance_sentinel :
  fst (run getFaucetBalance no_wallet) = Normal "0" /\
  fst (run getFaucetBalance declined) = Normal "0".
Proof. vm_compute. split; reflexivity. Qed.

(** ** The direct balance check does not interfere *)

Section CrossValidation.

Variables w1 w2 : World.

Hypothesis same_wallet : window_ethereum w1 = window_ethereum w2.

Hypothesis same_answers :
  forall t c, cross_validation c = false -> respond w1 t c = respond w2 t c.

Lemma getFaucetContract_agree (t0 : list Event) :
  getFaucetContract w1 t0 = getFaucetContract w2 t0.
Proof.
  unfold getFaucetContract. rewrite !getFaucetContract_at_eq, same_wallet.
  rewrite (same_answers _ NewBrowserProvider eq_refl).
  rewrite (same_answers _ GetSigner eq_refl).
  reflexivity.
Qed.

(** Claim C10.  Take two worlds that differ only in what the direct balance
    check reads, the token's [decimals()] and [balanceOf(FAUCET_ADDRESS)].
    If the [try] block of [getFaucetBalance] completes in both, both runs
    return the same balance: what the faucet's [getFaucetBalance()]
    answered, printed with six decimals. *)
Theorem getFaucetBalance_cross_validation
    (t0 tr1 tr2 : list Event) (shown1 shown2 : string) :
  getFaucetBalance_try w1 t0 = (Normal shown1, tr1) ->
  getFaucetBalance_try w2 t0 = (Normal shown2, tr2) ->
  getFaucetBalance w1 t0 = (Normal shown1, tr1) /\
  getFaucetBalance w2 t0 = (Normal shown2, tr2) /\
  shown1 = shown2 /\
  exists c t balanceWei,
    respond w1 t (CallGetFaucetBalance c) = Normal balanceWei /\
    respond w2 t (CallGetFaucetBalance c) = Normal balanceWei /\
    Ethers.formatUnits balanceWei 6 = Normal shown1.
Proof.
  intros H1 H2.
  split; [now rewrite getFaucetBalance_eq, H1 |].
  split; [now rewrite getFaucetBalance_eq, H2 |].
  rewrite getFaucetBalance_try_eq in H1, H2.
  rewrite <- getFaucetContract_agree in H2.
  destruct (getFaucetContract w1 _) as [[c | e] t1]; [| discriminate H1].
  rewrite <- (same_answers t1 (CallUsdcToken c) eq_refl) in H2.
  destruct (respond w1 t1 (CallUsdcToken c)) as [tokenAddress | e];
    [| discriminate H1].
  apply balance_rest_success in H1 as [(bal1 & R1 & F1) _].
  apply balance_rest_success in H2 as [(bal2 & R2 & F2) _].
  rewrite <- (same_answers _ (CallGetFaucetBalance c) eq_refl), R1 in R2.
  injection R2 as <-. rewrite F1 in F2. injection F2 as <-.
  split; [reflexivity |].
  exists c. eexists. exists bal1. repeat split; try eassumption.
  now rewrite <- (same_answers _ (CallGetFaucetBalance c) eq_refl).
Qed.

End CrossValidation.

Lemma with_token_agrees (w : World) (decimals directBalance : Z) :
  forall t c, cross_validation c = false ->
    respond w t c = respond (with_token w decimals directBalance) t c.
Proof. intros t [] H; try reflexivity; discriminate H. Qed.

(** A token of 6 decimals holding 5000000 units for the faucet, against a
    token of 18 decimals holding 7 units: 5.0 is returned in both runs. *)
Lemma getFaucetBalance_cross_validation_witness :
  let w1 := connected 5000000 0 in
  let w2 := with_token w1 18 7 in
  getFaucetBalance w1 [] = (Normal "5.0", snd (getFaucetBalance_try w1 [])) /\
  getFaucetBalance w2 [] = (Normal "5.0", snd (getFaucetBalance_try w2 [])) /\
  "5.0" = "5.0" /\
  exists c t balanceWei,
    respond w1 t (CallGetFaucetBalance c) = Normal balanceWei /\
    respond w2 t (CallGetFaucetBalance c) = Normal balanceWei /\
    Ethers.formatUnits balanceWei 6 = Normal "5.0".
Proof.
  apply (getFaucetBalance_cross_validation
           (connected 5000000 0) (with_token (connected 5000000 0) 18 7)
           eq_refl (with_token_agrees (connected 5000000 0) 18 7) []).
  - vm_compute. reflexivity.
  - vm_compute. reflexivity.
Defined.

(* ================================================================== *)
(** * Further properties of the operations *)
(* ================================================================== *)

(** ** Without a wallet *)

Lemma calls_app (t1 t2 : list Event) : calls (t1 ++ t2) = calls t1 ++ calls t2.
Proof. apply flat_map_app. Qed.

(** Without a wallet extension, no operation interacts with anything: the
    four operations that propagate fail with ProviderUnavailable, the two
    that mask return their sentinels, and the trace holds console output
    only. *)
Theorem no_wallet_no_interaction (w : World) (amount : JsValue) :
  window_ethereum w = false ->
  ToBoolean amount = true ->
  run (requestTokens amount) w
  = (Throw ProviderUnavailable, [request_failure ProviderUnavailable]) /\
  run getRemainingAllowance w
  = (Throw ProviderUnavailable, [allowance_failure ProviderUnavailable]) /\
  run triggerAutoMint w
  = (Throw ProviderUnavailable, [trigger_failure ProviderUnavailable]) /\
  run forceAutoMint w
  = (Throw ProviderUnavailable, [force_failure ProviderUnavailable]) /\
  run getFaucetBalance w
  = (Normal "0", balance_started :: balance_failure ProviderUnavailable) /\
  run getTimeUntilNextAutoMint w
  = (Normal time_sentinel, [time_failure ProviderUnavailable]).
Proof.
  intros Hw Ha.
  unfold requestTokens, requestTokens_try, requestTokens_catch,
    getRemainingAllowance, getRemainingAllowance_try,
    getRemainingAllowance_catch, triggerAutoMint, triggerAutoMint_try,
    triggerAutoMint_catch, forceAutoMint, forceAutoMint_try,
    forceAutoMint_catch, getFaucetBalance, getFaucetBalance_try,
    getFaucetBalance_catch, getTimeUntilNextAutoMint,
    getTimeUntilNextAutoMint_try, getTimeUntilNextAutoMint_catch,
    getFaucetContract.
  rewrite Ha. cbv beta iota delta [negb]. unfold_monad.
  rewrite !getFaucetContract_at_eq, Hw.
  repeat split.
Qed.

Lemma no_wallet_no_interaction_witness :
  run (requestTokens (JsString "1")) no_wallet
  = (Throw ProviderUnavailable, [request_failure ProviderUnavailable]) /\
  run getRemainingAllowance no_wallet
  = (Throw ProviderUnavailable, [allowance_failure ProviderUnavailable]) /\
  run triggerAutoMint no_wallet
  = (Throw ProviderUnavailable, [trigger_failure ProviderUnavailable]) /\
  run forceAutoMint no_wallet
  = (Throw ProviderUnavailable, [force_failure ProviderUnavailable]) /\
  run getFaucetBalance no_wallet
  = (Normal "0", balance_started :: balance_failure ProviderUnavailable) /\
  run getTimeUntilNextAutoMint no_wallet
  = (Normal time_sentinel, [time_failure ProviderUnavailable]).
Proof.
  apply (no_wallet_no_interaction no_wallet (JsString "1")); reflexivity.
Defined.

(** ** The queries are read-only *)

Ltac read_only_trace :=
  rewrite ?calls_app; cbn [calls flat_map app state_changing];
  repeat constructor.

(** The three queries never submit a transaction and never wait for one:
    whatever the world answers, the interactions of [getRemainingAllowance],
    [getFaucetBalance] and [getTimeUntilNextAutoMint] are reads. *)
Theorem queries_read_only (w : World) :
  Forall (fun c => state_changing c = false)
         (calls (snd (run getRemainingAllowance w))) /\
  Forall (fun c => state_changing c = false)
         (calls (snd (run getFaucetBalance w))) /\
  Forall (fun c => state_changing c = false)
         (calls (snd (run getTimeUntilNextAutoMint w))).
Proof.
  unfold getRemainingAllowance, getRemainingAllowance_try,
    getRemainingAllowance_catch, getFaucetBalance, getFaucetBalance_try,
    getFaucetBalance_catch, getTimeUntilNextAutoMint,
    getTimeUntilNextAutoMint_try, getTimeUntilNextAutoMint_catch,
    getFaucetContract.
  unfold_monad. rewrite !getFaucetContract_at_eq.
  cbn [ToBoolean FAUCET_ADDRESS String.eqb Ascii.eqb negb]. cbn zeta.
  destruct (window_ethereum w); [| repeat split; read_only_trace].
  repeat split; all_paths; cbn [snd]; read_only_trace.
Qed.

(** ** The auto-mint transactions: [triggerAutoMint] and [forceAutoMint] *)

Section AutoMint.

Variable w : World.
Variable t0 : list Event.

(** [triggerAutoMint] returns the transaction that [tryAutoMint()]
    submitted, and only once [tx.wait()] has resolved.  An error of the
    provider, of the submission or of the wait is thrown to the caller as
    it is; when it is the wait that fails, the transaction was submitted
    and the caller does not get it. *)
Theorem triggerAutoMint_outcome (r : Completion TransactionResponse) :
  fst (triggerAutoMint w t0) = r <-> trigger_run w t0 r.
Proof.
  unfold triggerAutoMint, triggerAutoMint_try, triggerAutoMint_catch.
  unfold_monad. split.
  - intros <-.
    destruct (getFaucetContract w t0) as [[c | e] t1] eqn:Hc;
      [| now apply (trigger_no_contract w t0 e t1)].
    cbv beta iota.
    destruct (respond w _ (CallTryAutoMint c)) as [tx | e] eqn:Rs;
      [| now apply (trigger_not_sent w t0 e c t1)].
    cbv beta iota.
    destruct (respond w _ (Wait tx)) as [[] | e] eqn:Rw.
    + now apply (trigger_included w t0 c t1 tx).
    + now apply (trigger_not_included w t0 e c t1 tx).
  - intros [e t1 Hc | e c t1 Hc Rs | e c t1 tx Hc Rs Rw | c t1 tx Hc Rs Rw];
      unfold trigger_sent, trigger_requested in *;
      rewrite Hc; cbv beta iota; try rewrite Rs; cbv beta iota;
      try rewrite Rw; reflexivity.
Qed.

(** [forceAutoMint] returns the transaction that [forceAutoMint()]
    submitted, and only once [tx.wait()] has resolved.  An error of the
    provider, of the submission (the contract refusing a caller who is not
    the owner, for one) or of the wait is thrown to the caller as it is. *)
Theorem forceAutoMint_outcome (r : Completion TransactionResponse) :
  fst (forceAutoMint w t0) = r <-> force_run w t0 r.
Proof.
  unfold forceAutoMint, forceAutoMint_try, forceAutoMint_catch.
  unfold_monad. split.
  - intros <-.
    destruct (getFaucetContract w t0) as [[c | e] t1] eqn:Hc;
      [| now apply (force_no_contract w t0 e t1)].
    cbv beta iota.
    destruct (respond w _ (CallForceAutoMint c)) as [tx | e] eqn:Rs;
      [| now apply (force_not_sent w t0 e c t1)].
    cbv beta iota.
    destruct (respond w _ (Wait tx)) as [[] | e] eqn:Rw.
    + now apply (force_included w t0 c t1 tx).
    + now apply (force_not_included w t0 e c t1 tx).
  - intros [e t1 Hc | e c t1 Hc Rs | e c t1 tx Hc Rs Rw | c t1 tx Hc Rs Rw];
      unfold force_sent, force_requested in *;
      rewrite Hc; cbv beta iota; try rewrite Rs; cbv beta iota;
      try rewrite Rw; reflexivity.
Qed.

End AutoMint.

(** With the connected wallet both return the transaction of the faucet. *)
Lemma triggerAutoMint_outcome_witness :
  fst (triggerAutoMint (connected 0 0) []) = Normal {| hash := "0x02" |}.
Proof.
  apply (proj2 (triggerAutoMint_outcome (connected 0 0) [] _)).
  apply (trigger_included (connected 0 0) [] connected_contract
           (snd (getFaucetContract (connected 0 0) [])) {| hash := "0x02" |});
    vm_compute; reflexivity.
Defined.

Lemma forceAutoMint_outcome_witness :
  fst (forceAutoMint (connected 0 0) []) = Normal {| hash := "0x02" |}.
Proof.
  apply (proj2 (forceAutoMint_outcome (connected 0 0) [] _)).
  apply (force_included (connected 0 0) [] connected_contract
           (snd (getFaucetContract (connected 0 0) [])) {| hash := "0x02" |});
    vm_compute; reflexivity.
Defined.

(** The interactions of each of the two are the provider, the signer, its
    own method of the contract and the wait for the transaction: neither
    calls the method of the other, requests tokens, asks for accounts or
    reads a balance. *)
Theorem auto_mint_calls (w : World) :
  (forall c', In c' (calls (snd (run triggerAutoMint w))) ->
     match c' with
     | NewBrowserProvider | GetSigner | CallTryAutoMint _ | Wait _ => True
     | _ => False
     end) /\
  (forall c', In c' (calls (snd (run forceAutoMint w))) ->
     match c' with
     | NewBrowserProvider | GetSigner | CallForceAutoMint _ | Wait _ => True
     | _ => False
     end).
Proof.
  unfold triggerAutoMint, triggerAutoMint_try, triggerAutoMint_catch,
    forceAutoMint, forceAutoMint_try, forceAutoMint_catch, getFaucetContract.
  unfold_monad. rewrite !getFaucetContract_at_eq.
  cbn [ToBoolean FAUCET_ADDRESS String.eqb Ascii.eqb negb]. cbn zeta.
  destruct (window_ethereum w).
  - split; all_paths; cbn [snd]; rewrite ?calls_app;
      cbn [calls flat_map app In]; intros c' H;
      repeat (destruct H as [<- | H]; [exact I |]); contradiction H.
  - split; cbn; intros c' [].
Qed.

(** ** What [requestTokens] submits *)

Section Amounts.

Import Ethers.

Lemma requested_amounts_app (t1 t2 : list Event) :
  requested_amounts (t1 ++ t2) = requested_amounts t1 ++ requested_amounts t2.
Proof. apply flat_map_app. Qed.

(** A text that denotes a decimal quantity is not empty. *)
Lemma decimal_value_truthy (s : string) (A : Q) :
  decimal_value s = Some A -> ToBoolean (JsString s) = true.
Proof. destruct s; [discriminate | reflexivity]. Qed.

(** Reading a positive amount of at most six decimals scales it exactly. *)
Lemma parseUnits_value (s : string) (A : Q) :
  decimal_value s = Some A ->
  (fraction_digits s <= 6)%nat ->
  (0 < A)%Q ->
  (A * inject_Z (10 ^ 6) < inject_Z (2 ^ 511))%Q ->
  exists n,
    parseUnits s 6 = Normal n /\ 0 < n /\
    (inject_Z n == A * inject_Z (10 ^ 6))%Q.
Proof.
  unfold decimal_value, fraction_digits. intros HA Hfrac Hpos Hfit.
  destruct (match_decimal (list_ascii_of_string s))
    as [[[neg whole] frac] |] eqn:Hm; [| discriminate].
  destruct (Nat.eqb_spec (List.length whole + List.length frac) 0) as [? | Hne];
    [discriminate |].
  injection HA as <-.
  set (m := BigInt_of_digits neg (whole ++ frac)) in *.
  set (k := Z.of_nat (List.length frac)) in *.
  assert (Hk : 0 <= k <= 6) by (subst k; lia).
  unfold Qlt, Qmult, inject_Z in Hpos, Hfit. cbn [Qnum Qden] in Hpos, Hfit.
  rewrite Pos.mul_1_r in Hfit. unfold k in Hfit. rewrite pow10_den in Hfit.
  fold k in Hfit. rewrite Z.mul_1_r in Hpos, Hfit.
  pose proof (pow10_pos k ltac:(lia)) as Hk10.
  pose proof (pow10_pos (6 - k) ltac:(lia)) as Hk10'.
  pose proof (pow10_split 6 k Hk) as Hsplit.
  exists (m * 10 ^ (6 - k)). split; [| split].
  - unfold parseUnits.
    rewrite (fromString_exact s 6 neg whole frac) by (assumption || lia).
    apply checkValue_fits. split; [nia |].
    apply (Z.mul_lt_mono_pos_r (10 ^ k)); [assumption |].
    rewrite <- Z.mul_assoc, Hsplit. lia.
  - nia.
  - unfold Qeq, Qmult, inject_Z. cbn [Qnum Qden].
    rewrite Pos.mul_1_r. unfold k. rewrite pow10_den. fold k.
    rewrite <- Hsplit. ring.
Qed.

(** What [formatUnits] printed is read back as the integer it printed, and
    is not empty. *)
Lemma formatUnits_read_back (n : Z) (shown : string) :
  0 <= n -> formatUnits n 6 = Normal shown ->
  parseUnits shown 6 = Normal n /\ ToBoolean (JsString shown) = true.
Proof.
  intros Hn Hf.
  assert (Hfit : 0 <= n < 2 ^ 511).
  { unfold formatUnits, fromValue, getFormat, checkValue in Hf.
    cbn [Z.leb Z.compare] in Hf.
    destruct (Z.leb_spec (- 2 ^ 511) n); cbn [andb] in Hf; [| discriminate].
    destruct (Z.ltb_spec n (2 ^ 511)); [lia | discriminate]. }
  destruct (unscale_scale_exact n Hfit) as (shown' & Hf' & Hp).
  rewrite Hf in Hf'. injection Hf' as <-. split; [assumption |].
  destruct shown; [| reflexivity].
  unfold parseUnits, fromString in Hp. cbn in Hp. discriminate.
Qed.

Variable w : World.
Variable c : Contract.
Variable t1 : list Event.

(** The wallet is connected. *)
Hypothesis connection : getFaucetContract w [] = (Normal c, t1).

Lemma connection_trace : requested_amounts t1 = [].
Proof.
  revert connection. unfold getFaucetContract.
  rewrite getFaucetContract_at_eq.
  destruct (window_ethereum w); [| discriminate].
  destruct (respond w [] NewBrowserProvider) as [[] | e]; [| discriminate].
  cbn zeta. destruct (respond w _ GetSigner); [| discriminate].
  cbn [ToBoolean FAUCET_ADDRESS String.eqb Ascii.eqb negb]. cbv beta iota.
  intros [= _ <-]. reflexivity.
Qed.

(** [requestTokens] with a readable amount: the scaled amount is submitted,
    once. *)
Lemma requestTokens_submits (amount : JsValue) (n : Z) :
  ToBoolean amount = true ->
  parseUnits (ToString amount) 6 = Normal n ->
  requested_amounts (snd (run (requestTokens amount) w)) = [n] /\
  In (Called (CallRequestTokens c n)) (snd (run (requestTokens amount) w)).
Proof.
  intros Ha Hp. pose proof connection_trace as Ht1.
  unfold requestTokens, run. rewrite Ha. cbv beta iota delta [negb].
  unfold requestTokens_try, requestTokens_catch. unfold_monad.
  rewrite connection. cbv beta iota. rewrite Hp. cbv beta iota.
  all_paths; cbn [snd]; rewrite ?requested_amounts_app, Ht1;
    (split; [reflexivity |]); rewrite ?in_app_iff; cbn [In]; tauto.
Qed.

(** An amount [parseUnits] cannot read is refused after the connection was
    made and before anything is submitted: the error of the conversion is
    logged and thrown, and the contract is not called. *)
Theorem requestTokens_unreadable_amount (amount : JsValue) (e : JsError) :
  ToBoolean amount = true ->
  parseUnits (ToString amount) 6 = Throw e ->
  run (requestTokens amount) w
  = (Throw e, (t1 ++ [requesting amount]) ++ [request_failure e]) /\
  requested_amounts (snd (run (requestTokens amount) w)) = [].
Proof.
  intros Ha Hp. pose proof connection_trace as Ht1.
  unfold requestTokens, run. rewrite Ha. cbv beta iota delta [negb].
  unfold requestTokens_try, requestTokens_catch. unfold_monad.
  rewrite connection. cbv beta iota. rewrite Hp. cbv beta iota.
  split; [reflexivity |].
  cbn [snd]. now rewrite !requested_amounts_app, Ht1.
Qed.

(** For a positive decimal amount [A] of at most six decimals, given as a
    text, [requestTokens] submits the integer [A * 10^6] to the contract,
    and submits nothing else. *)
Theorem requestTokens_submits_scaled (s : string) (A : Q) :
  decimal_value s = Some A ->
  (fraction_digits s <= 6)%nat ->
  (0 < A)%Q ->
  (A * inject_Z (10 ^ 6) < inject_Z (2 ^ 256))%Q ->
  exists n,
    (inject_Z n == A * inject_Z (10 ^ 6))%Q /\
    requested_amounts (snd (run (requestTokens (JsString s)) w)) = [n] /\
    In (Called (CallRequestTokens c n))
       (snd (run (requestTokens (JsString s)) w)).
Proof.
  intros HA Hfrac Hpos Hfit.
  assert (Hfit' : (A * inject_Z (10 ^ 6) < inject_Z (2 ^ 511))%Q).
  { eapply Qlt_trans; [exact Hfit |]. unfold Qlt, inject_Z. cbn [Qnum Qden].
    rewrite !Z.mul_1_r. apply Z.pow_lt_mono_r; lia. }
  destruct (parseUnits_value s A HA Hfrac Hpos Hfit') as (n & Hp & _ & Hn).
  exists n. split; [assumption |].
  apply requestTokens_submits; [| assumption].
  now apply (decimal_value_truthy s A).
Qed.

(** The text [getRemainingAllowance] shows for the allowance [remainingWei]
    can be handed to [requestTokens] as it is: exactly [remainingWei] is
    then submitted. *)
Theorem requestTokens_of_allowance (remainingWei : Z) (shown : string) :
  0 <= remainingWei ->
  formatUnits remainingWei 6 = Normal shown ->
  requested_amounts (snd (run (requestTokens (JsString shown)) w))
  = [remainingWei] /\
  In (Called (CallRequestTokens c remainingWei))
     (snd (run (requestTokens (JsString shown)) w)).
Proof.
  intros Hn Hf. destruct (formatUnits_read_back _ _ Hn Hf) as [Hp Ht].
  now apply requestTokens_submits.
Qed.

End Amounts.

(** The amount 0.0000001 has a seventh decimal. *)
Lemma requestTokens_unreadable_amount_witness :
  run (requestTokens (JsString "0.0000001")) (connected 0 0)
  = (Throw (mkError "too many decimals for format"),
     (snd (getFaucetContract (connected 0 0) [])
        ++ [requesting (JsString "0.0000001")])
       ++ [request_failure (mkError "too many decimals for format")]) /\
  requested_amounts
    (snd (run (requestTokens (JsString "0.0000001")) (connected 0 0))) = [].
Proof.
  apply (requestTokens_unreadable_amount (connected 0 0) connected_contract
           (snd (getFaucetContract (connected 0 0) []))).
  - vm_compute. reflexivity.
  - reflexivity.
  - vm_compute. reflexivity.
Defined.

(** The amount 1.5 is submitted as 1500000. *)
Lemma requestTokens_submits_scaled_witness :
  exists n,
    (inject_Z n == (15 # 10) * inject_Z (10 ^ 6))%Q /\
    requested_amounts (snd (run (requestTokens (JsString "1.5")) (connected 0 0)))
    = [n] /\
    In (Called (CallRequestTokens connected_contract n))
       (snd (run (requestTokens (JsString "1.5")) (connected 0 0))).
Proof.
  apply (requestTokens_submits_scaled (connected 0 0) connected_contract
           (snd (getFaucetContract (connected 0 0) []))).
  - vm_compute. reflexivity.
  - reflexivity.
  - vm_compute. lia.
  - reflexivity.
  - reflexivity.
Defined.

(** The allowance 2500000 is shown as 2.5 and requested as 2500000. *)
Lemma requestTokens_of_allowance_witness :
  requested_amounts (snd (run (requestTokens (JsString "2.5")) (connected 0 0)))
  = [2500000] /\
  In (Called (CallRequestTokens connected_contract 2500000))
     (snd (run (requestTokens (JsString "2.5")) (connected 0 0))).
Proof.
  apply (requestTokens_of_allowance (connected 0 0) connected_contract
           (snd (getFaucetContract (connected 0 0) [])));
    [vm_compute; reflexivity | lia | vm_compute; reflexivity].
Defined.

(** ** The sentinels and the values they stand beside *)

Section Sentinels.

Import Ethers.

(** Whatever [formatUnits] prints with six decimals, it is not "0". *)
Lemma formatUnits_not_sentinel (n : Z) (shown : string) :
  formatUnits n 6 = Normal shown -> shown <> "0".
Proof.
  unfold formatUnits, fromValue, getFormat. cbn [Z.leb Z.compare].
  destruct (checkValue n) as [v |] eqn:Hv; [| discriminate].
  unfold checkValue in Hv.
  destruct ((- 2 ^ 511 <=? n) && (n <? 2 ^ 511)); [| discriminate].
  injection Hv as <-. intros [= <-] H.
  apply (f_equal list_ascii_of_string) in H.
  rewrite list_ascii_of_string_of_list_ascii in H.
  change (list_ascii_of_string "0") with [zero_char] in H.
  destruct (Z.ltb_spec n 0) as [Hneg | Hpos].
  - unfold toString in H. destruct (Z.ltb_spec n 0); [| lia].
    cbn [Z.eqb app] in H. discriminate H.
  - destruct (toString_shape n 6 Hpos ltac:(lia))
      as (W & F & E & HW & _ & _ & HF & _).
    rewrite E in H. apply (f_equal (@List.length ascii)) in H.
    rewrite length_app in H. cbn in H.
    destruct W; [contradiction | cbn in H; lia].
Qed.

Variable w : World.
Variable t0 : list Event.

(** [getFaucetBalance] returns "0" exactly when its [try] block failed: a
    balance that was read is never shown as "0", an empty faucet being
    shown as "0.0". *)
Theorem getFaucetBalance_sentinel_iff :
  fst (getFaucetBalance w t0) = Normal "0" <->
  exists e t1, getFaucetBalance_try w t0 = (Throw e, t1).
Proof.
  rewrite getFaucetBalance_eq.
  destruct (getFaucetBalance_try w t0) as [[shown | e] t1] eqn:H.
  - split; [| intros (e & t2 & [=])]. cbn [fst]. intros [= ->]. exfalso.
    rewrite getFaucetBalance_try_eq in H.
    destruct (getFaucetContract w _) as [[c | e] t2]; [| discriminate H].
    destruct (respond w t2 (CallUsdcToken c)) as [tokenAddress | e];
      [| discriminate H].
    apply balance_rest_success in H as [(bal & _ & F) _].
    now apply (formatUnits_not_sentinel bal "0").
  - split; [eauto | reflexivity].
Qed.

(** What a read of the duration gives is never the sentinel. *)
Lemma time_result_not_sentinel (t : Z) : time_result t <> time_sentinel.
Proof.
  intros H. pose proof (f_equal timeInSeconds H) as Ht.
  pose proof (f_equal isAvailableNow H) as Ha. cbn in Ht, Ha.
  rewrite Ht in Ha. discriminate Ha.
Qed.

(** [getTimeUntilNextAutoMint] returns the sentinel exactly when its [try]
    block failed: a duration of zero that was read comes with
    [isAvailableNow] true, the sentinel with [isAvailableNow] false. *)
Theorem getTimeUntilNextAutoMint_sentinel_iff :
  fst (getTimeUntilNextAutoMint w t0) = Normal time_sentinel <->
  exists e t1, getTimeUntilNextAutoMint_try w t0 = (Throw e, t1).
Proof.
  rewrite getTimeUntilNextAutoMint_eq. split.
  - destruct (read_time w t0) as [[t | e] t1] eqn:H; cbn [fst].
    + intros E. exfalso. apply (time_result_not_sentinel t). congruence.
    + intros _. exists e, t1. now apply getTimeUntilNextAutoMint_try_throws.
  - intros (e & t1 & H). apply getTimeUntilNextAutoMint_try_throws in H.
    now rewrite H.
Qed.

End Sentinels.

(** ** The direct balance check can hide the balance *)

Section DirectCheck.

Variable w : World.
Variable c : Contract.
Variable t1 : list Event.
Variable tokenAddress : string.
Variable balanceWei : Z.
Variable shown : string.

(** The faucet contract is obtained, it names its token and answers its
    balance, which is shown. *)
Hypothesis connection :
  getFaucetContract w [balance_started] = (Normal c, t1).
Hypothesis token :
  respond w t1 (CallUsdcToken c) = Normal tokenAddress.

Let checked : list Event :=
  mismatch_reported (token_checked t1 c tokenAddress) tokenAddress.

Hypothesis balance :
  respond w (checked ++ [connected_logged]) (CallGetFaucetBalance c)
  = Normal balanceWei.
Hypothesis printed : Ethers.formatUnits balanceWei 6 = Normal shown.

(** Although the faucet answered its balance, [getFaucetBalance] returns
    that balance only if the direct check on the token contract goes
    through as well; if the second provider, [decimals()], [balanceOf()] or
    the printing of the direct balance fails, it returns "0". *)
Theorem getFaucetBalance_direct_check :
  (fst (run getFaucetBalance w) = Normal "0" <->
   exists e,
     direct_check_error w (balance_shown checked c balanceWei shown)
       tokenAddress e) /\
  (fst (run getFaucetBalance w) = Normal shown \/
   fst (run getFaucetBalance w) = Normal "0").
Proof.
  pose proof (formatUnits_not_sentinel _ _ printed) as Hns.
  unfold run. rewrite getFaucetBalance_eq, getFaucetBalance_try_eq.
  cbn [app]. rewrite connection, token. fold checked.
  pose proof balance as Hb. unfold connected_logged in Hb.
  unfold balance_rest, balance_shown, connected_logged. unfold_monad.
  rewrite Hb. cbv beta iota. rewrite printed. cbv beta iota.
  destruct (respond w _ NewBrowserProvider) as [[] | e] eqn:R1; cbv beta iota.
  - destruct (respond w _ (CallDecimals _)) as [d | e] eqn:R2; cbv beta iota.
    + destruct (respond w _ (CallBalanceOf _ _)) as [b | e] eqn:R3;
        cbv beta iota.
      * destruct (Ethers.formatUnits_big b d) as [direct | e] eqn:F;
          cbv beta iota; cbn [fst].
        -- split; [| now left]. split; [congruence |].
           intros (e & [H | H H' | d' H H' H'' | d' b' H H' H'' H''']);
             congruence.
        -- split; [| now right]. split; [| reflexivity]. intros _. exists e.
           now apply (direct_not_printed _ _ _ _ d b).
      * split; [| now right]. split; [| reflexivity]. intros _. exists e.
        now apply (direct_no_balance _ _ _ _ d).
    + split; [| now right]. split; [| reflexivity]. intros _. exists e.
      now apply direct_no_decimals.
  - split; [| now right]. split; [| reflexivity]. intros _. exists e.
    now apply direct_no_provider.
Qed.

End DirectCheck.

(** The faucet holds 5.0, and its token address holds no token contract:
    the balance is reported as "0". *)
Lemma getFaucetBalance_direct_check_witness :
  fst (run getFaucetBalance (without_token (connected 5000000 0)))
  = Normal "0".
Proof.
  pose (w := without_token (connected 5000000 0)).
  pose (t1 := snd (getFaucetContract w [balance_started])).
  apply (proj2 (proj1 (getFaucetBalance_direct_check w connected_contract t1
                         usdc_lower 5000000 "5.0"
                         eq_refl eq_refl eq_refl eq_refl))).
  exists (mkError "could not decode result data").
  apply direct_no_decimals; reflexivity.
Defined.

(** ** An account request that returns no account *)

(** [getRemainingAllowance] does not check that an account was returned:
    with an empty list it still calls the contract, with [undefined] as the
    address, and throws what that call throws. *)
Theorem getRemainingAllowance_no_account
    (w : World) (t0 t1 : list Event) (c : Contract) (e : JsError) :
  getFaucetContract w t0 = (Normal c, t1) ->
  respond w t1 EthRequestAccounts = Normal [] ->
  respond w (allowance_query t1 [])
    (CallGetRemainingAllowance c JsUndefined) = Throw e ->
  getRemainingAllowance w t0
  = (Throw e,
     (allowance_query t1 []
        ++ [Called (CallGetRemainingAllowance c JsUndefined)])
       ++ [allowance_failure e]).
Proof.
  intros Hc Ra Rq.
  unfold getRemainingAllowance, getRemainingAllowance_try,
    getRemainingAllowance_catch. unfold_monad.
  rewrite Hc. cbv beta iota. rewrite Ra. cbv beta iota.
  unfold allowance_query in Rq. cbn [first_account] in Rq |- *.
  rewrite Rq. reflexivity.
Qed.

Lemma getRemainingAllowance_no_account_witness :
  getRemainingAllowance no_account []
  = (Throw (mkError "invalid address"),
     (allowance_query (snd (getFaucetContract no_account [])) []
        ++ [Called (CallGetRemainingAllowance connected_contract JsUndefined)])
       ++ [allowance_failure (mkError "invalid address")]).
Proof.
  apply (getRemainingAllowance_no_account no_account []
           (snd (getFaucetContract no_account [])) connected_contract);
    vm_compute; reflexivity.
Defined.

(** ** The breakdown of the duration is exact *)

(** The breakdown is computed on binary64 numbers.  For a duration below
    [2^53] seconds the conversion from the BigInt is exact, [%] is exact,
    and the rounding of [/] never carries a quotient to the next integer,
    so that [Math.floor] gives the integer quotient. *)

Lemma digits2_pos_bounds (p : positive) :
  2 ^ (Zpos (digits2_pos p) - 1) <= Zpos p < 2 ^ Zpos (digits2_pos p).
Proof.
  induction p as [p IH | p IH |]; cbn [digits2_pos].
  - rewrite Pos2Z.inj_succ. replace (Z.succ (Zpos (digits2_pos p)) - 1)
      with (Z.succ (Zpos (digits2_pos p) - 1)) by lia.
    rewrite !Z.pow_succ_r by lia. lia.
  - rewrite Pos2Z.inj_succ. replace (Z.succ (Zpos (digits2_pos p)) - 1)
      with (Z.succ (Zpos (digits2_pos p) - 1)) by lia.
    rewrite !Z.pow_succ_r by lia. lia.
  - cbn. lia.
Qed.

Lemma digits2_pos_unique (p : positive) (d : Z) :
  2 ^ (d - 1) <= Zpos p < 2 ^ d -> Zpos (digits2_pos p) = d.
Proof.
  intros H. pose proof (digits2_pos_bounds p) as B.
  set (D := Zpos (digits2_pos p)) in *.
  assert (0 < D) by (subst D; lia).
  assert (0 < d).
  { destruct (Z.le_gt_cases d 0) as [Hd | Hd]; [| assumption].
    destruct (Z.eq_dec d 0) as [-> | ]; [cbn in H; lia |].
    rewrite (Z.pow_neg_r 2 d) in H by lia. lia. }
  destruct (Z.lt_trichotomy D d) as [Hlt | [Heq | Hgt]]; [| assumption |].
  - assert (2 ^ D <= 2 ^ (d - 1)) by (apply Z.pow_le_mono_r; lia). lia.
  - assert (2 ^ d <= 2 ^ (D - 1)) by (apply Z.pow_le_mono_r; lia). lia.
Qed.

(** A mantissa of 53 bits stands as it is. *)
Lemma round_exact (s : bool) (m : positive) (e : Z) :
  2 ^ 52 <= Zpos m < 2 ^ 53 -> -1074 <= e <= 971 ->
  binary_round_aux prec emax s (Zpos m) e loc_Exact = S754_finite s m e.
Proof.
  intros Hm He. pose proof (digits2_pos_unique m 53 Hm) as Hd.
  unfold binary_round_aux, shr_fexp, fexp, emin, prec, emax.
  cbn [Zdigits2 shr_record_of_loc]. rewrite Hd.
  replace (Z.max (53 + e - 53) (3 - 1024 - 53) - e) with 0 by lia.
  cbn [shr shr_m loc_of_shr_record round_nearest_even Zdigits2 shr_record_of_loc].
  rewrite Hd.
  replace (Z.max (53 + e - 53) (3 - 1024 - 53) - e) with 0 by lia.
  cbn [shr shr_m].
  destruct (Z.leb_spec e (1024 - 53)); [reflexivity | lia].
Qed.

Lemma iter_pos_nat {A : Type} (f : A -> A) (p : positive) :
  forall x, iter_pos f p x = Nat.iter (Pos.to_nat p) f x.
Proof.
  induction p as [p IH | p IH |]; intros x; cbn [iter_pos].
  - rewrite !IH, Pos2Nat.inj_xI.
    replace (S (2 * Pos.to_nat p))%nat
      with (Pos.to_nat p + S (Pos.to_nat p))%nat by lia.
    now rewrite Nat.iter_add, Nat.iter_succ_r.
  - rewrite !IH, Pos2Nat.inj_xO.
    replace (2 * Pos.to_nat p)%nat
      with (Pos.to_nat p + Pos.to_nat p)%nat by lia.
    now rewrite Nat.iter_add.
  - reflexivity.
Qed.

(** Shifting out zero bits is exact. *)
Lemma iter_shr_zeros (k : nat) :
  forall m : positive,
    Nat.iter k shr_1
      {| shr_m := Zpos m * 2 ^ Z.of_nat k; shr_r := false; shr_s := false |}
    = {| shr_m := Zpos m; shr_r := false; shr_s := false |}.
Proof.
  induction k as [| k IH]; intros m.
  - cbn [Z.of_nat]. rewrite Z.pow_0_r, Z.mul_1_r. reflexivity.
  - rewrite Nat.iter_succ.
    replace (Zpos m * 2 ^ Z.of_nat (S k)) with (Zpos (xO m) * 2 ^ Z.of_nat k)
      by (rewrite Nat2Z.inj_succ, Z.pow_succ_r by lia; lia).
    rewrite IH. reflexivity.
Qed.

Lemma iter_xO_value (p d : positive) :
  Zpos (Pos.iter xO p d) = Zpos p * 2 ^ Zpos d.
Proof.
  rewrite <- Z.shiftl_mul_pow2 by lia. cbn [Z.shiftl].
  apply (Pos.iter_swap_gen _ _ Zpos xO (Z.mul 2)). reflexivity.
Qed.

(** A mantissa of more than 53 bits whose extra bits are zero loses them. *)
Lemma round_exact_shift (s : bool) (m0 : positive) (n e : Z) :
  2 ^ 52 <= Zpos m0 < 2 ^ 53 -> 0 <= n -> -1074 <= e + n <= 971 ->
  binary_round_aux prec emax s (Zpos m0 * 2 ^ n) e loc_Exact
  = S754_finite s m0 (e + n).
Proof.
  intros Hm Hn He.
  destruct (Z.eq_dec n 0) as [-> | Hn0].
  - rewrite Z.mul_1_r, Z.add_0_r. apply round_exact; [assumption | lia].
  - assert (Hpw : 0 < 2 ^ n) by (apply Z.pow_pos_nonneg; lia).
    destruct (Zpos m0 * 2 ^ n) as [| p |] eqn:Ep; try lia.
    assert (Hd : Zpos (digits2_pos p) = 53 + n).
    { apply digits2_pos_unique. rewrite <- Ep.
      replace (53 + n - 1) with (52 + n) by lia.
      rewrite !Z.pow_add_r by lia. nia. }
    pose proof (digits2_pos_unique m0 53 Hm) as Hd0.
    unfold binary_round_aux, shr_fexp, fexp, emin, prec, emax.
    cbn [Zdigits2 shr_record_of_loc]. rewrite Hd.
    replace (Z.max (53 + n + e - 53) (3 - 1024 - 53) - e) with n by lia.
    destruct n as [| np |]; try lia. cbn [shr].
    assert (Hit : iter_pos shr_1 np
                    {| shr_m := Zpos p; shr_r := false; shr_s := false |}
                  = {| shr_m := Zpos m0; shr_r := false; shr_s := false |}).
    { rewrite iter_pos_nat, <- Ep, <- (positive_nat_Z np).
      apply iter_shr_zeros. }
    rewrite Hit.
    cbn [shr_m loc_of_shr_record round_nearest_even Zdigits2 shr_record_of_loc].
    rewrite Hd0.
    replace (Z.max (53 + (e + Zpos np) - 53) (3 - 1024 - 53) - (e + Zpos np))
      with 0 by lia.
    cbn [shr shr_m].
    destruct (Z.leb_spec (e + Zpos np) (1024 - 53)); [reflexivity | lia].
Qed.

(** The binary64 of a positive integer below [2^53], however it is
    written: the mantissa holds the integer, shifted to 53 bits. *)
Lemma normalize_int (u k d : Z) :
  2 ^ (d - 1) <= u < 2 ^ d -> 0 < d <= 53 -> 0 <= k ->
  exists m,
    binary_normalize prec emax (u * 2 ^ k) (- k) false
    = S754_finite false m (d - 53) /\
    Zpos m = u * 2 ^ (53 - d).
Proof.
  intros Hu Hd Hk.
  assert (H0 : 0 < 2 ^ (d - 1)) by (apply Z.pow_pos_nonneg; lia).
  assert (Hpk : 0 < 2 ^ k) by (apply Z.pow_pos_nonneg; lia).
  assert (Hpd : 0 < 2 ^ (53 - d)) by (apply Z.pow_pos_nonneg; lia).
  assert (Hm0 : 2 ^ 52 <= u * 2 ^ (53 - d) < 2 ^ 53).
  { assert (E1 : 2 ^ 52 = 2 ^ (d - 1) * 2 ^ (53 - d))
      by (rewrite <- Z.pow_add_r by lia; f_equal; lia).
    assert (E2 : 2 ^ 53 = 2 ^ d * 2 ^ (53 - d))
      by (rewrite <- Z.pow_add_r by lia; f_equal; lia).
    rewrite E1, E2. nia. }
  destruct (u * 2 ^ (53 - d)) as [| m0 |] eqn:Em0; try lia.
  exists m0. split; [| reflexivity].
  destruct (u * 2 ^ k) as [| p |] eqn:Ep; try nia.
  assert (Hdp : Zpos (digits2_pos p) = d + k).
  { apply digits2_pos_unique. rewrite <- Ep.
    replace (d + k - 1) with ((d - 1) + k) by lia.
    rewrite !Z.pow_add_r by lia. nia. }
  unfold binary_normalize, binary_round. rewrite Hdp.
  unfold fexp, emin, prec, emax.
  replace (Z.max (d + k + - k - 53) (3 - 1024 - 53)) with (d - 53) by lia.
  unfold shl_align.
  destruct (d - 53 - - k) as [| q | q] eqn:Eq.
  - (* exactly 53 bits *)
    assert (p = m0) as ->.
    { apply Pos2Z.inj. rewrite <- Ep, <- Em0. f_equal. f_equal. lia. }
    replace (d - 53) with (- k) by lia.
    apply round_exact; [assumption | lia].
  - (* more than 53 bits *)
    replace (Zpos p) with (Zpos m0 * 2 ^ Zpos q).
    + replace (d - 53) with (- k + Zpos q) by lia.
      apply round_exact_shift; [assumption | lia | lia].
    + rewrite <- Ep, <- Em0, <- Z.mul_assoc, <- Z.pow_add_r by lia.
      f_equal. f_equal. lia.
  - (* fewer than 53 bits *)
    assert (Pos.iter xO p q = m0) as ->.
    { apply Pos2Z.inj. rewrite iter_xO_value, <- Ep, <- Em0.
      rewrite <- Z.mul_assoc, <- Z.pow_add_r by lia. f_equal. f_equal. lia. }
    apply round_exact; [assumption | lia].
Qed.

Lemma div_eucl_div_mod (a b : Z) : Z.div_eucl a b = (a / b, a mod b).
Proof. unfold Z.div, Z.modulo. now destruct (Z.div_eucl a b). Qed.

(** The last step of a rounding: a mantissa of 53 bits, or [2^53], is
    brought to 53 bits without loss. *)
Lemma round_last (M e : Z) :
  2 ^ 52 <= M <= 2 ^ 53 -> -1074 <= e -> e + 1 <= 971 ->
  exists m' e',
    (let '(mrs, e'') := shr_fexp prec emax M e loc_Exact in
     match shr_m mrs with
     | Z0 => S754_zero false
     | Zpos m => if e'' <=? emax - prec then S754_finite false m e''
                 else S754_infinity false
     | Zneg _ => S754_nan
     end) = S754_finite false m' e' /\
    e <= e' <= e + 1 /\ Zpos m' * 2 ^ (e' - e) = M.
Proof.
  intros HM He He'.
  destruct (Z.eq_dec M (2 ^ 53)) as [-> | Hne].
  - exists (Z.to_pos (2 ^ 52)), (e + 1). split; [| split; [lia |]].
    + unfold shr_fexp, fexp, emin, prec, emax.
      replace (Zdigits2 (2 ^ 53)) with 54 by reflexivity.
      replace (Z.max (54 + e - 53) (3 - 1024 - 53) - e) with 1 by lia.
      cbn [shr iter_pos shr_record_of_loc].
      change (shr_1 {| shr_m := 2 ^ 53; shr_r := false; shr_s := false |})
        with {| shr_m := 2 ^ 52; shr_r := false; shr_s := false |}.
      cbn [shr_m]. change (2 ^ 52) with (Zpos (Z.to_pos (2 ^ 52))).
      cbv beta iota.
      destruct (Z.leb_spec (e + 1) (1024 - 53)); [reflexivity | lia].
    + replace (e + 1 - e) with 1 by lia. reflexivity.
  - destruct M as [| m |]; try (cbn in HM; lia).
    exists m, e. split; [| split; [lia |]].
    + assert (Hd : Zpos (digits2_pos m) = 53)
        by (apply digits2_pos_unique; lia).
      unfold shr_fexp, fexp, emin, prec, emax. cbn [Zdigits2]. rewrite Hd.
      replace (Z.max (53 + e - 53) (3 - 1024 - 53) - e) with 0 by lia.
      cbn [shr shr_record_of_loc shr_m].
      destruct (Z.leb_spec e (1024 - 53)); [reflexivity | lia].
    + rewrite Z.sub_diag. cbn. lia.
Qed.

Lemma loc_of_shr_record_of_loc (m : Z) (l : location) :
  loc_of_shr_record (shr_record_of_loc m l) = l.
Proof. destruct l as [| []]; reflexivity. Qed.

(** Rounding a quotient of 53 or 54 bits: the result is the quotient, or
    one more, or one less when the quotient is odd. *)
Lemma round_quotient (q e : Z) (l : location) :
  2 ^ 52 <= q < 2 ^ 54 -> -1074 <= e -> e + 2 <= 971 ->
  exists m' e',
    binary_round_aux prec emax false q e l = S754_finite false m' e' /\
    e <= e' <= e + 2 /\
    (Zpos m' * 2 ^ (e' - e) = q \/ Zpos m' * 2 ^ (e' - e) = q + 1 \/
     (Zpos m' * 2 ^ (e' - e) = q - 1 /\ Z.odd q = true)).
Proof.
  intros Hq He He'. unfold binary_round_aux.
  destruct (Z_lt_le_dec q (2 ^ 53)) as [H53 | H54].
  - (* 53 bits: no shift *)
    destruct q as [| p |] eqn:Eq; try (cbn in Hq; lia).
    assert (Hd : Zpos (digits2_pos p) = 53) by (apply digits2_pos_unique; lia).
    assert (E1 : shr_fexp prec emax (Zpos p) e l
                 = (shr_record_of_loc (Zpos p) l, e)).
    { unfold shr_fexp, fexp, emin, prec, emax. cbn [Zdigits2]. rewrite Hd.
      replace (Z.max (53 + e - 53) (3 - 1024 - 53) - e) with 0 by lia.
      reflexivity. }
    rewrite E1. rewrite loc_of_shr_record_of_loc.
    set (M := round_nearest_even (shr_m (shr_record_of_loc (Zpos p) l)) l).
    assert (HM : M = Zpos p \/ M = Zpos p + 1).
    { subst M.
      destruct l as [| []]; cbn [shr_record_of_loc shr_m round_nearest_even];
        try destruct (Z.even (Zpos p)); auto. }
    destruct (round_last M e) as (m' & e' & E & Hb & HV); [lia | lia | lia |].
    exists m', e'. split; [exact E | split; [lia |]].
    rewrite HV. destruct HM as [-> | ->]; auto.
  - (* 54 bits: one bit is shifted out *)
    destruct q as [| p |] eqn:Eq; try (cbn in Hq; lia).
    assert (Hd : Zpos (digits2_pos p) = 54) by (apply digits2_pos_unique; lia).
    assert (E1 : shr_fexp prec emax (Zpos p) e l
                 = (shr_1 (shr_record_of_loc (Zpos p) l), e + 1)).
    { unfold shr_fexp, fexp, emin, prec, emax. cbn [Zdigits2]. rewrite Hd.
      replace (Z.max (54 + e - 53) (3 - 1024 - 53) - e) with 1 by lia.
      reflexivity. }
    rewrite E1.
    set (mrs := shr_1 (shr_record_of_loc (Zpos p) l)).
    set (M := round_nearest_even (shr_m mrs) (loc_of_shr_record mrs)).
    assert (HM : 2 * M = Zpos p \/ 2 * M = Zpos p + 1 \/
                 (2 * M = Zpos p - 1 /\ Z.odd (Zpos p) = true)).
    { subst M mrs. destruct p as [p | p |].
      - destruct l as [| []];
          cbn [shr_record_of_loc shr_1 shr_m loc_of_shr_record orb
               round_nearest_even];
          try destruct (Z.even (Zpos p));
          first [ left; lia | right; left; lia
                | right; right; split; [lia | reflexivity] ].
      - destruct l as [| []];
          cbn [shr_record_of_loc shr_1 shr_m loc_of_shr_record orb
               round_nearest_even];
          left; lia.
      - cbn in H54. lia. }
    destruct (round_last M (e + 1)) as (m' & e' & E & Hb & HV); [lia | lia | lia |].
    exists m', e'. split; [exact E | split; [lia |]].
    replace (e' - e) with ((e' - (e + 1)) + 1) by lia.
    rewrite Z.pow_add_r, Z.mul_assoc, HV by lia.
    rewrite Z.pow_1_r, Z.mul_comm. exact HM.
Qed.

(** The binary64 of a non-negative integer below [2^53]. *)
Lemma Number_of_BigInt_pos (u d : Z) :
  2 ^ (d - 1) <= u < 2 ^ d -> 0 < d <= 53 ->
  exists m,
    Number_of_BigInt u = S754_finite false m (d - 53) /\
    Zpos m = u * 2 ^ (53 - d).
Proof.
  intros Hu Hd. unfold Number_of_BigInt.
  destruct (normalize_int u 0 d Hu Hd ltac:(lia)) as (m & E & Hm).
  exists m. split; [| assumption].
  rewrite Z.pow_0_r, Z.mul_1_r in E. exact E.
Qed.

(** The number of bits of a positive integer. *)
Lemma bit_length (u : Z) :
  0 < u < 2 ^ 53 ->
  exists d, 2 ^ (d - 1) <= u < 2 ^ d /\ 0 < d <= 53.
Proof.
  intros Hu. exists (Z.log2 u + 1).
  pose proof (Z.log2_spec u ltac:(lia)) as Hs.
  pose proof (Z.log2_nonneg u).
  replace (Z.log2 u + 1 - 1) with (Z.log2 u) by lia.
  replace (Z.succ (Z.log2 u)) with (Z.log2 u + 1) in Hs by lia.
  split; [assumption |]. split; [lia |].
  assert (Z.log2 u < 53) by (apply Z.log2_lt_pow2; lia). lia.
Qed.

(** An integer times a power of two, with the matching exponent, is the
    same number. *)
Lemma normalize_scaled (u k : Z) :
  0 <= u < 2 ^ 53 -> 0 <= k ->
  binary_normalize prec emax (u * 2 ^ k) (- k) false = Number_of_BigInt u.
Proof.
  intros Hu Hk. destruct (Z.eq_dec u 0) as [-> | Hne]; [reflexivity |].
  destruct (bit_length u ltac:(lia)) as (d & Hd & Hd').
  destruct (normalize_int u k d Hd Hd' Hk) as (m & E & Hm).
  destruct (Number_of_BigInt_pos u d Hd Hd') as (m' & E' & Hm').
  rewrite E, E'. f_equal. apply Pos2Z.inj. congruence.
Qed.

(** [%] is exact on integers. *)
Lemma Number_rem_exact (a b : Z) :
  0 <= a < 2 ^ 53 -> 0 < b < 2 ^ 53 ->
  Number_rem (Number_of_BigInt a) (Number_of_BigInt b)
  = Number_of_BigInt (a mod b).
Proof.
  intros Ha Hb.
  destruct (bit_length b Hb) as (db & Hdb & Hdb').
  destruct (Number_of_BigInt_pos b db Hdb Hdb') as (m2 & E2 & Hm2).
  rewrite E2.
  destruct (Z.eq_dec a 0) as [-> | Hne]; [reflexivity |].
  destruct (bit_length a ltac:(lia)) as (da & Hda & Hda').
  destruct (Number_of_BigInt_pos a da Hda Hda') as (m1 & E1 & Hm1).
  rewrite E1. unfold Number_rem. cbn [cond_Zopp].
  set (e := Z.min (da - 53) (db - 53)).
  assert (He : e <= 0) by (subst e; lia).
  assert (HA : Zpos m1 * 2 ^ (da - 53 - e) = a * 2 ^ (- e)).
  { rewrite Hm1, <- Z.mul_assoc, <- Z.pow_add_r by (subst e; lia).
    f_equal. f_equal. lia. }
  assert (HB : Zpos m2 * 2 ^ (db - 53 - e) = b * 2 ^ (- e)).
  { rewrite Hm2, <- Z.mul_assoc, <- Z.pow_add_r by (subst e; lia).
    f_equal. f_equal. lia. }
  rewrite HA, HB.
  assert (Hp : 0 < 2 ^ (- e)) by (apply Z.pow_pos_nonneg; lia).
  rewrite Z.mul_mod_distr_r by lia.
  replace e with (- (- e)) at 2 by lia.
  apply normalize_scaled; [| lia].
  pose proof (Z.mod_pos_bound a b ltac:(lia)). lia.
Qed.

(** [Math.floor] of a division of integers is the integer quotient: the
    rounding of the division never reaches the next integer. *)
Lemma floor_div_exact (a b : Z) :
  0 <= a < 2 ^ 53 -> 4 <= b < 2 ^ 53 ->
  Math_floor (Number_div (Number_of_BigInt a) (Number_of_BigInt b))
  = Number_of_BigInt (a / b).
Proof.
  intros Ha Hb.
  destruct (bit_length b ltac:(lia)) as (db & Hdb & Hdb').
  destruct (Number_of_BigInt_pos b db Hdb Hdb') as (m2 & E2 & Hm2).
  rewrite E2.
  destruct (Z.eq_dec a 0) as [-> | Hne]; [reflexivity |].
  destruct (bit_length a ltac:(lia)) as (da & Hda & Hda').
  destruct (Number_of_BigInt_pos a da Hda Hda') as (m1 & E1 & Hm1).
  rewrite E1.
  assert (Hdb3 : 3 <= db).
  { destruct (Z_lt_le_dec db 3) as [Hlt | ]; [| assumption].
    assert (2 ^ db <= 2 ^ 2) by (apply Z.pow_le_mono_r; lia).
    change (2 ^ 2) with 4 in *. lia. }
  assert (Hd1 : Zpos (digits2_pos m1) = 53).
  { apply digits2_pos_unique. rewrite Hm1.
    assert (E : 2 ^ 52 = 2 ^ (da - 1) * 2 ^ (53 - da))
      by (rewrite <- Z.pow_add_r by lia; f_equal; lia).
    assert (E' : 2 ^ 53 = 2 ^ da * 2 ^ (53 - da))
      by (rewrite <- Z.pow_add_r by lia; f_equal; lia).
    assert (0 < 2 ^ (53 - da)) by (apply Z.pow_pos_nonneg; lia).
    replace (53 - 1) with 52 by lia. rewrite E, E'. nia. }
  assert (Hd2 : Zpos (digits2_pos m2) = 53).
  { apply digits2_pos_unique. rewrite Hm2.
    assert (E : 2 ^ 52 = 2 ^ (db - 1) * 2 ^ (53 - db))
      by (rewrite <- Z.pow_add_r by lia; f_equal; lia).
    assert (E' : 2 ^ 53 = 2 ^ db * 2 ^ (53 - db))
      by (rewrite <- Z.pow_add_r by lia; f_equal; lia).
    assert (0 < 2 ^ (53 - db)) by (apply Z.pow_pos_nonneg; lia).
    replace (53 - 1) with 52 by lia. rewrite E, E'. nia. }
  pose proof (digits2_pos_bounds m1) as B1. rewrite Hd1 in B1.
  pose proof (digits2_pos_bounds m2) as B2. rewrite Hd2 in B2.
  replace (53 - 1) with 52 in B1, B2 by lia.
  (* the division proper *)
  set (e := da - db - 53).
  set (S := 2 ^ (- e)).
  set (q := (a * S) / b).
  assert (HS : 0 < S) by (subst S e; apply Z.pow_pos_nonneg; lia).
  assert (Ediv : Number_div (S754_finite false m1 (da - 53))
                            (S754_finite false m2 (db - 53))
                 = binary_round_aux prec emax false q e
                     (new_location (Zpos m2)
                        ((Zpos m1 * 2 ^ 53) mod Zpos m2))).
  { unfold Number_div, SFdiv, SFdiv_core_binary, fexp, emin, prec, emax.
    cbn [Zdigits2 xorb]. rewrite Hd1, Hd2.
    replace (Z.min (Z.max (53 + (da - 53) - (53 + (db - 53)) - 53)
                          (3 - 1024 - 53))
                   (da - 53 - (db - 53))) with e by (subst e; lia).
    replace (da - 53 - (db - 53) - e) with 53 by (subst e; lia).
    rewrite Z.shiftl_mul_pow2 by lia. rewrite div_eucl_div_mod.
    replace (Zpos m1 * 2 ^ 53 / Zpos m2) with q; [reflexivity |].
    subst q. rewrite Hm1, Hm2.
    replace (a * 2 ^ (53 - da) * 2 ^ 53) with (a * S * 2 ^ (53 - db)).
    - rewrite Z.div_mul_cancel_r; [reflexivity | lia |].
      apply Z.pow_nonzero; lia.
    - subst S e. rewrite <- !Z.mul_assoc, <- !Z.pow_add_r by lia.
      f_equal. f_equal. lia. }
  rewrite Ediv.
  assert (Hq : 2 ^ 52 <= q < 2 ^ 54).
  { assert (Eq' : q = Zpos m1 * 2 ^ 53 / Zpos m2).
    { subst q. rewrite Hm1, Hm2.
      replace (a * 2 ^ (53 - da) * 2 ^ 53) with (a * S * 2 ^ (53 - db)).
      - rewrite Z.div_mul_cancel_r; [reflexivity | lia |].
        apply Z.pow_nonzero; lia.
      - subst S e. rewrite <- !Z.mul_assoc, <- !Z.pow_add_r by lia.
        f_equal. f_equal. lia. }
    rewrite Eq'. split.
    - apply Z.div_le_lower_bound; [lia |].
      change (2 ^ 53) with (2 * 2 ^ 52) in *. nia.
    - apply Z.div_lt_upper_bound; [lia |].
      change (2 ^ 54) with (2 * 2 ^ 53). nia. }
  destruct (round_quotient q e
              (new_location (Zpos m2) ((Zpos m1 * 2 ^ 53) mod Zpos m2)))
    as (m' & e' & E & He' & HV); [assumption | subst e; lia | subst e; lia |].
  rewrite E. unfold Math_floor.
  destruct (Z.leb_spec 0 e') as [Hpos | Hneg]; [subst e; lia |].
  cbn [cond_Zopp]. unfold Number_of_BigInt. f_equal.
  (* the quotient *)
  set (K := a / b).
  set (V := Zpos m' * 2 ^ (e' - e)) in *.
  assert (HVdiv : Zpos m' / 2 ^ (- e') = V / S).
  { subst V S. replace (- e) with (- e' + (e' - e)) by lia.
    rewrite Z.pow_add_r by lia.
    rewrite Z.div_mul_cancel_r; [reflexivity | |];
      apply Z.pow_nonzero; lia. }
  rewrite HVdiv.
  assert (Hb_S : b < S).
  { subst S e. replace (- (da - db - 53)) with (db + (53 - da)) by lia.
    rewrite Z.pow_add_r by lia.
    assert (1 <= 2 ^ (53 - da)) by (apply Z.lt_pred_le, Z.pow_pos_nonneg; lia).
    nia. }
  assert (HSeven : exists S', S = 2 * S').
  { exists (2 ^ (- e - 1)). subst S.
    replace (- e) with (Z.succ (- e - 1)) at 1 by lia.
    apply Z.pow_succ_r. subst e. lia. }
  pose proof (Z.div_mod a b ltac:(lia)) as Dab.
  pose proof (Z.mod_pos_bound a b ltac:(lia)) as Mab. fold K in Dab.
  pose proof (Z.div_mod (a * S) b ltac:(lia)) as Dq.
  pose proof (Z.mod_pos_bound (a * S) b ltac:(lia)) as Mq. fold q in Dq.
  assert (HK : 0 <= K) by (subst K; apply Z.div_pos; lia).
  assert (H1 : a * S <= (K * b + b - 1) * S)
    by (apply Z.mul_le_mono_nonneg_r; lia).
  assert (H2 : (K * b) * S <= a * S)
    by (apply Z.mul_le_mono_nonneg_r; lia).
  assert (Hlow : K * S <= q).
  { destruct (Z_lt_le_dec q (K * S)) as [Hc | ]; [exfalso | assumption].
    assert (H3 : b * (q + 1) <= b * (K * S))
      by (apply Z.mul_le_mono_nonneg_l; lia).
    lia. }
  assert (Hup : q + 1 < (K + 1) * S).
  { destruct (Z_lt_le_dec (q + 1) ((K + 1) * S)) as [ | Hc];
      [assumption | exfalso].
    assert (H3 : b * ((K + 1) * S) <= b * (q + 1))
      by (apply Z.mul_le_mono_nonneg_l; lia).
    lia. }
  symmetry. apply (Z.div_unique V S K (V - S * K)); [| lia].
  left. destruct HV as [-> | [-> | [-> Hodd]]]; try lia.
  destruct HSeven as (S' & ES).
  apply Z.odd_spec in Hodd as (j & Hj).
  assert (K * S <> q) by (rewrite ES, Hj; lia). lia.
Qed.

(** For every duration [t] below [2^53] seconds, the days, hours and
    minutes of the breakdown are the integer quotients [t / 86400],
    [(t mod 86400) / 3600] and [(t mod 3600) / 60]: the floating-point
    arithmetic of the conversion loses nothing. *)
Theorem time_breakdown_exact (t : Z) :
  0 <= t < 2 ^ 53 ->
  formatted (time_result t)
  = breakdown (Number_of_BigInt (t / 86400))
              (Number_of_BigInt (t mod 86400 / 3600))
              (Number_of_BigInt (t mod 3600 / 60)).
Proof.
  intros Ht. unfold time_result. cbn [formatted].
  pose proof (Z.mod_pos_bound t 86400 ltac:(lia)) as H1.
  pose proof (Z.mod_pos_bound t 3600 ltac:(lia)) as H2.
  assert (Hb : 86400 < 2 ^ 53) by reflexivity.
  rewrite !Number_rem_exact by lia.
  rewrite !floor_div_exact by lia.
  reflexivity.
Qed.

(** 200000 seconds are 2 days, 7 hours and 33 minutes. *)
Lemma time_breakdown_exact_witness :
  formatted (time_result 200000)
  = breakdown (Number_of_BigInt (200000 / 86400))
              (Number_of_BigInt (200000 mod 86400 / 3600))
              (Number_of_BigInt (200000 mod 3600 / 60)) /\
  breakdown (Number_of_BigInt (200000 / 86400))
            (Number_of_BigInt (200000 mod 86400 / 3600))
            (Number_of_BigInt (200000 mod 3600 / 60))
  = "2 days, 7 hours, 33 minutes".
Proof.
  split; [apply (time_breakdown_exact 200000); lia | vm_compute; reflexivity].
Defined.

(** The bound is needed: 27 seconds after [2^53] the conversion to a
    number rounds the duration up by one second, into the next minute. *)
Lemma time_breakdown_rounded :
  formatted (time_result (2 ^ 53 + 27))
  = "104249991374 days, 7 hours, 37 minutes" /\
  (2 ^ 53 + 27) mod 3600 / 60 = 36.
Proof. vm_compute. split; reflexivity. Qed.
